(** * xpack hash-chain matchfinder (src/xpack/lib/hc_matchfinder.h)

    A shallow embedding of [struct hc_matchfinder], [hc_matchfinder_init],
    [hc_matchfinder_longest_match] and [hc_matchfinder_skip_positions],
    followed by the properties of the matchfinder that the specification
    states about them.

    Conventions of the embedding.
    - [u32] values are integers of [Z] with the wrap-around written out
      ([u32 z = z mod 2^32]); [ptrdiff_t] positions are integers of [Z]
      (a 64-bit [ptrdiff_t] never overflows on the buffers considered).
    - The three tables are [list Z]; the input buffer is a [list byte].
      An access outside an array is undefined behaviour in C: the embedding
      reads [0] there and drops the write (see [arr_get], [arr_set],
      [byte_at]).
    - Pointers into the input buffer ([in_next], [matchptr],
      [best_matchptr]) are represented by their position
      ([ptr - in_begin]).
    - Loops carry a [fuel : nat]; running out of fuel is [None].  The
      top-level functions choose a fuel that is proved sufficient. *)

From Stdlib Require Import ZArith Lia Bool List Sorted.
From Stdlib Require Import Strings.String Strings.Byte.
From stdpp Require Import base tactics option list.
Import ListNotations.
Local Open Scope Z_scope.

(** ** Machine integers and arrays *)

Definition u32 (z : Z) : Z := z mod 2 ^ 32.

Definition arr_get (a : list Z) (i : Z) : Z :=
  if i <? 0 then 0 else default 0 (a !! Z.to_nat i).

Definition arr_set (a : list Z) (i v : Z) : list Z :=
  if i <? 0 then a else <[Z.to_nat i := v]> a.

(** [in_begin[i]] as an unsigned byte. *)
Definition byte_at (buf : list byte) (i : Z) : Z :=
  if i <? 0 then 0 else Z.of_N (Byte.to_N (default x00 (buf !! Z.to_nat i))).

(** ** The helpers of unaligned.h, lz_extend.h and lz_hash.h *)

(** Modelled from the spec: unaligned.h is not part of the sources.  The
    design notes describe the loads as "read a fixed-width little-endian
    integer from an unaligned offset"; [load_u32_unaligned] reads the four
    bytes at position [p]. *)
Definition load_u32_unaligned (buf : list byte) (p : Z) : Z :=
  Z.lor (byte_at buf p)
    (Z.lor (Z.shiftl (byte_at buf (p + 1)) 8)
       (Z.lor (Z.shiftl (byte_at buf (p + 2)) 16)
          (Z.shiftl (byte_at buf (p + 3)) 24))).

(** Modelled from the spec: unaligned.h is not part of the sources.  The
    3-byte little-endian window at position [p]. *)
Definition load_u24_unaligned (buf : list byte) (p : Z) : Z :=
  Z.lor (byte_at buf p)
    (Z.lor (Z.shiftl (byte_at buf (p + 1)) 8)
       (Z.shiftl (byte_at buf (p + 2)) 16)).

(** Modelled from the spec: unaligned.h is not part of the sources.  The
    3-byte window contained in an already loaded little-endian 4-byte
    window. *)
Definition loaded_u32_to_u24 (v : Z) : Z := Z.land v 16777215.

(** Modelled from the spec: lz_extend.h is not part of the sources.
    "Match extension compares candidate and current windows forward from
    the point already known to match, up to max_len, returning the total
    equal run length."  The loop runs at most [max_len - len] times, which
    is the fuel [lz_extend] gives it. *)
Fixpoint lz_extend_loop (fuel : nat) (buf : list byte)
    (strpos matchpos len max_len : Z) : Z :=
  match fuel with
  | O => len
  | S fuel' =>
      if (len <? max_len)
         && (byte_at buf (strpos + len) =? byte_at buf (matchpos + len))
      then lz_extend_loop fuel' buf strpos matchpos (len + 1) max_len
      else len
  end.

Definition lz_extend (buf : list byte)
    (strpos matchpos start_len max_len : Z) : Z :=
  lz_extend_loop (Z.to_nat (max_len - start_len)) buf
    strpos matchpos start_len max_len.

(** Modelled from the spec: lz_hash.h is not part of the sources.  "A fast
    multiplicative hash reduced to the table's bit-width": the product is
    taken on 32 bits and its [num_bits] high bits are kept.  The general
    results below hold for every hash function; this one instantiates them
    on concrete buffers. *)
Definition lz_hash_mul (seq num_bits : Z) : Z :=
  Z.shiftr (u32 (seq * 506832829)) (32 - num_bits).

(** ** The matchfinder structure *)

Definition HC_MATCHFINDER_HASH3_ORDER : Z := 15.
Definition HC_MATCHFINDER_HASH4_ORDER : Z := 16.

Record hc_matchfinder : Type := mk_hc_matchfinder {
  hash3_tab : list Z;   (* u32 hash3_tab[1UL << HC_MATCHFINDER_HASH3_ORDER] *)
  hash4_tab : list Z;   (* u32 hash4_tab[1UL << HC_MATCHFINDER_HASH4_ORDER] *)
  next_tab : list Z     (* u32 next_tab[], one slot per buffer position *)
}.

(** [memset] of [sizeof *mf] bytes at [mf].  [next_tab] is a flexible
    array member: it does not count in [sizeof *mf], so the two hash tables
    are zeroed and the chain links keep their previous contents. *)
Definition hc_matchfinder_init (mf : hc_matchfinder) : hc_matchfinder :=
  {| hash3_tab := replicate (Z.to_nat (2 ^ HC_MATCHFINDER_HASH3_ORDER)) 0;
     hash4_tab := replicate (Z.to_nat (2 ^ HC_MATCHFINDER_HASH4_ORDER)) 0;
     next_tab := next_tab mf |}.

(** What a loop of the search leaves through: [break] with the node it
    stopped on, or [goto out]. *)
Inductive loop_exit : Type :=
  | Break (cur_node4 depth_remaining : Z)
  | GotoOut.

(** The values returned by [hc_matchfinder_longest_match]: the length, the
    offset written to [*offset_ret], and the updated [*mf] and
    [next_hashes]. *)
Record search_result : Type := mk_search_result {
  sr_len : Z;
  sr_offset : Z;
  sr_mf : hc_matchfinder;
  sr_next_hashes : Z * Z
}.

Record skip_result : Type := mk_skip_result {
  sk_stop : Z;
  sk_mf : hc_matchfinder;
  sk_next_hashes : Z * Z
}.

Section Matchfinder.

(** [lz_hash] of lz_hash.h and the compile-time switch of the word-wise
    candidate filter. *)
Variable lz_hash : Z -> Z -> Z.
Variable UNALIGNED_ACCESS_IS_FAST : bool.

(** "Compute the next hash codes" for the sequence at position [pos]. *)
Definition hashes_at (buf : list byte) (pos : Z) : Z * Z :=
  let next_seq4 := load_u32_unaligned buf pos in
  let next_seq3 := loaded_u32_to_u24 next_seq4 in
  (lz_hash next_seq3 HC_MATCHFINDER_HASH3_ORDER,
   lz_hash next_seq4 HC_MATCHFINDER_HASH4_ORDER).

(** The first loop: "No length 4 match found yet.  Check the first 4
    bytes." *)
Fixpoint find_len4 (fuel : nat) (mf : hc_matchfinder) (buf : list byte)
    (seq4 cur_node4 depth_remaining : Z) : option loop_exit :=
  match fuel with
  | O => None
  | S fuel' =>
      let matchptr := cur_node4 in
      if load_u32_unaligned buf matchptr =? seq4
      then Some (Break cur_node4 depth_remaining)
      else
        let cur_node4 := arr_get (next_tab mf) cur_node4 in
        if cur_node4 =? 0 then Some GotoOut
        else
          let depth_remaining := u32 (depth_remaining - 1) in
          if depth_remaining =? 0 then Some GotoOut
          else find_len4 fuel' mf buf seq4 cur_node4 depth_remaining
  end.

(** The candidate filter of the second loop. *)
Definition longer_candidate (buf : list byte)
    (in_next matchptr best_len : Z) : bool :=
  if UNALIGNED_ACCESS_IS_FAST
  then (load_u32_unaligned buf (matchptr + best_len - 3)
          =? load_u32_unaligned buf (in_next + best_len - 3))
       && (load_u32_unaligned buf matchptr
             =? load_u32_unaligned buf in_next)
  else byte_at buf (matchptr + best_len) =? byte_at buf (in_next + best_len).

(** "Check for matches of length >= 5": the two nested loops.  One
    unfolding is one visited node: the inner loop rejects it and moves on,
    or breaks and the outer loop extends it; either way the next node is
    fetched and [depth_remaining] decremented.  The result is the pair
    [(best_len, best_matchptr)] at label [out]. *)
Fixpoint find_longer (fuel : nat) (mf : hc_matchfinder) (buf : list byte)
    (in_next max_len nice_len : Z)
    (cur_node4 depth_remaining best_len best_matchptr : Z)
    : option (Z * Z) :=
  match fuel with
  | O => None
  | S fuel' =>
      let matchptr := cur_node4 in
      if longer_candidate buf in_next matchptr best_len then
        let len := if UNALIGNED_ACCESS_IS_FAST then 4 else 0 in
        let len := lz_extend buf in_next matchptr len max_len in
        let improved := len >? best_len in
        let best_len' := if improved then len else best_len in
        let best_matchptr' := if improved then matchptr else best_matchptr in
        if improved && (best_len' >=? nice_len)
        then Some (best_len', best_matchptr')
        else
          let cur_node4 := arr_get (next_tab mf) cur_node4 in
          if cur_node4 =? 0 then Some (best_len', best_matchptr')
          else
            let depth_remaining := u32 (depth_remaining - 1) in
            if depth_remaining =? 0 then Some (best_len', best_matchptr')
            else find_longer fuel' mf buf in_next max_len nice_len
                   cur_node4 depth_remaining best_len' best_matchptr'
      else
        let cur_node4 := arr_get (next_tab mf) cur_node4 in
        if cur_node4 =? 0 then Some (best_len, best_matchptr)
        else
          let depth_remaining := u32 (depth_remaining - 1) in
          if depth_remaining =? 0 then Some (best_len, best_matchptr)
          else find_longer fuel' mf buf in_next max_len nice_len
                 cur_node4 depth_remaining best_len best_matchptr
  end.

(** A walk decrements [depth_remaining] once per node and stops when it
    reaches zero, so it visits at most [u32 (depth - 1) + 1] nodes. *)
Definition depth_fuel (max_search_depth : Z) : nat :=
  S (Z.to_nat (u32 (max_search_depth - 1))).

(** The search proper, after the tables have been updated: lines 212-305.
    The result is [(best_len, best_matchptr)] at label [out]. *)
Definition search_chains (mf : hc_matchfinder) (buf : list byte)
    (in_next best_len max_len nice_len max_search_depth : Z)
    (cur_node3 cur_node4 : Z) : option (Z * Z) :=
  let fuel := depth_fuel max_search_depth in
  let depth_remaining := max_search_depth in
  let best_matchptr := in_next in
  if best_len <? 4 then
    if cur_node3 =? 0 then Some (best_len, best_matchptr)
    else
      let seq4 := load_u32_unaligned buf in_next in
      let '(best_len, best_matchptr) :=
        if (best_len <? 3)
           && (load_u24_unaligned buf cur_node3 =? loaded_u32_to_u24 seq4)
        then (3, cur_node3)
        else (best_len, best_matchptr) in
      if cur_node4 =? 0 then Some (best_len, best_matchptr)
      else
        match find_len4 fuel mf buf seq4 cur_node4 depth_remaining with
        | None => None
        | Some GotoOut => Some (best_len, best_matchptr)
        | Some (Break cur_node4 depth_remaining) =>
            let best_matchptr := cur_node4 in
            let best_len := lz_extend buf in_next best_matchptr 4 max_len in
            if best_len >=? nice_len then Some (best_len, best_matchptr)
            else
              let cur_node4 := arr_get (next_tab mf) cur_node4 in
              if cur_node4 =? 0 then Some (best_len, best_matchptr)
              else
                let depth_remaining := u32 (depth_remaining - 1) in
                if depth_remaining =? 0 then Some (best_len, best_matchptr)
                else find_longer fuel mf buf in_next max_len nice_len
                       cur_node4 depth_remaining best_len best_matchptr
        end
  else
    if (cur_node4 =? 0) || (best_len >=? nice_len)
    then Some (best_len, best_matchptr)
    else find_longer fuel mf buf in_next max_len nice_len
           cur_node4 depth_remaining best_len best_matchptr.

(** [prefetchw] is a hint to the cache and has no counterpart here. *)
Definition hc_matchfinder_longest_match (mf : hc_matchfinder)
    (buf : list byte)
    (cur_pos best_len max_len nice_len max_search_depth : Z)
    (next_hashes : Z * Z) : option search_result :=
  let in_next := cur_pos in
  if max_len <? 5 then
    (* goto out, with best_matchptr = in_next *)
    Some (mk_search_result best_len (u32 (in_next - in_next)) mf next_hashes)
  else
    let hash3 := fst next_hashes in
    let hash4 := snd next_hashes in
    let cur_node3 := arr_get (hash3_tab mf) hash3 in
    let cur_node4 := arr_get (hash4_tab mf) hash4 in
    let mf :=
      {| hash3_tab := arr_set (hash3_tab mf) hash3 (u32 cur_pos);
         hash4_tab := arr_set (hash4_tab mf) hash4 (u32 cur_pos);
         next_tab := arr_set (next_tab mf) cur_pos cur_node4 |} in
    let next_hashes := hashes_at buf (in_next + 1) in
    match search_chains mf buf in_next best_len max_len nice_len
            max_search_depth cur_node3 cur_node4 with
    | None => None
    | Some (best_len, best_matchptr) =>
        Some (mk_search_result best_len (u32 (in_next - best_matchptr))
                mf next_hashes)
    end.

(** The [do ... while (in_next != stop_ptr)] loop of
    [hc_matchfinder_skip_positions]. *)
Fixpoint skip_loop (fuel : nat) (mf : hc_matchfinder) (buf : list byte)
    (in_next stop_ptr hash3 hash4 : Z)
    : option (hc_matchfinder * (Z * Z)) :=
  match fuel with
  | O => None
  | S fuel' =>
      let h3 := arr_set (hash3_tab mf) hash3 (u32 in_next) in
      let nt := arr_set (next_tab mf) in_next (arr_get (hash4_tab mf) hash4) in
      let h4 := arr_set (hash4_tab mf) hash4 (u32 in_next) in
      let mf := {| hash3_tab := h3; hash4_tab := h4; next_tab := nt |} in
      let in_next := in_next + 1 in
      let '(hash3, hash4) := hashes_at buf in_next in
      if in_next =? stop_ptr then Some (mf, (hash3, hash4))
      else skip_loop fuel' mf buf in_next stop_ptr hash3 hash4
  end.

(** [fuel] bounds the iterations of the loop; [Z.to_nat count] is enough
    whenever [count > 0] (see [skip_positions_inserts]). *)
Definition hc_matchfinder_skip_positions_fuel (fuel : nat)
    (mf : hc_matchfinder) (buf : list byte)
    (cur_pos end_pos count : Z) (next_hashes : Z * Z)
    : option skip_result :=
  let in_next := cur_pos in
  let stop_ptr := in_next + count in
  if u32 (count + 5) <=? end_pos - cur_pos then
    match skip_loop fuel mf buf in_next stop_ptr
            (fst next_hashes) (snd next_hashes) with
    | None => None
    | Some (mf, next_hashes) => Some (mk_skip_result stop_ptr mf next_hashes)
    end
  else Some (mk_skip_result stop_ptr mf next_hashes).

Definition hc_matchfinder_skip_positions (mf : hc_matchfinder)
    (buf : list byte) (cur_pos end_pos count : Z) (next_hashes : Z * Z)
    : option skip_result :=
  hc_matchfinder_skip_positions_fuel (Z.to_nat count)
    mf buf cur_pos end_pos count next_hashes.

(** ** Histories of calls

    The caller owns [next_hashes] and threads it, with the matchfinder,
    through its calls. *)
Definition mf_state : Type := hc_matchfinder * (Z * Z).

Inductive call : Type :=
  | Search (cur_pos best_len max_len nice_len max_search_depth : Z)
  | Skip (cur_pos end_pos count : Z).

(** One call: the new state and what the caller observes, the pair
    (length, offset) of a search. *)
Definition run_call (buf : list byte) (st : mf_state) (c : call)
    : option (mf_state * list (Z * Z)) :=
  match c with
  | Search cur_pos best_len max_len nice_len max_search_depth =>
      match hc_matchfinder_longest_match (fst st) buf cur_pos best_len
              max_len nice_len max_search_depth (snd st) with
      | None => None
      | Some r =>
          Some ((sr_mf r, sr_next_hashes r), [(sr_len r, sr_offset r)])
      end
  | Skip cur_pos end_pos count =>
      match hc_matchfinder_skip_positions (fst st) buf cur_pos end_pos
              count (snd st) with
      | None => None
      | Some r => Some ((sk_mf r, sk_next_hashes r), [])
      end
  end.

Fixpoint run_calls (buf : list byte) (st : mf_state) (cs : list call)
    : option (mf_state * list (Z * Z)) :=
  match cs with
  | [] => Some (st, [])
  | c :: cs' =>
      match run_call buf st c with
      | None => None
      | Some (st', out) =>
          match run_calls buf st' cs' with
          | None => None
          | Some (st'', outs) => Some (st'', out ++ outs)
          end
      end
  end.

(** Positions are presented in strictly increasing order and fit the
    [u32] slots of the tables: [call_ok n c] admits the call [c] when
    every position below [n] is behind the scan, and [call_end c] is the
    first position after those [c] covers. *)
Definition call_ok (n : Z) (c : call) : Prop :=
  match c with
  | Search cur_pos _ _ _ _ => n <= cur_pos < 2 ^ 32
  | Skip cur_pos _ count => n <= cur_pos /\ 0 < count /\ cur_pos + count <= 2 ^ 32
  end.

Definition call_end (c : call) : Z :=
  match c with
  | Search cur_pos _ _ _ _ => cur_pos + 1
  | Skip cur_pos _ count => cur_pos + count
  end.

(** [reachable buf n st]: [st] is the state after a reset followed by
    calls at strictly increasing positions, all of them below [n]. *)
Inductive reachable (buf : list byte) : Z -> mf_state -> Prop :=
  | reach_init mf next_hashes :
      reachable buf 0 (hc_matchfinder_init mf, next_hashes)
  | reach_call n st c st' out :
      reachable buf n st ->
      call_ok n c ->
      run_call buf st c = Some (st', out) ->
      reachable buf (call_end c) st'.

(** A single-position insertion, "as done by Search's step 3" (with the
    hashing of steps 2 and 4 around it), and [count] of them in a row. *)
Definition insert_position (buf : list byte) (st : mf_state) (pos : Z)
    : mf_state :=
  let hash3 := fst (snd st) in
  let hash4 := snd (snd st) in
  let prev_head := arr_get (hash4_tab (fst st)) hash4 in
  ({| hash3_tab := arr_set (hash3_tab (fst st)) hash3 (u32 pos);
      hash4_tab := arr_set (hash4_tab (fst st)) hash4 (u32 pos);
      next_tab := arr_set (next_tab (fst st)) pos prev_head |},
   hashes_at buf (pos + 1)).

Fixpoint insert_positions (buf : list byte) (st : mf_state) (pos : Z)
    (count : nat) : mf_state :=
  match count with
  | O => st
  | S count' =>
      insert_positions buf (insert_position buf st pos) (pos + 1) count'
  end.

(** The state a search leaves: untouched when [max_len < 5], one
    insertion of the current position otherwise. *)
Definition after_search (buf : list byte) (st : mf_state) (p max_len : Z)
    : mf_state :=
  if max_len <? 5 then st else insert_position buf st p.

(** The state a skip leaves: [count] insertions when the lookahead test
    passes, the state it was given otherwise. *)
Definition after_skip (buf : list byte) (st : mf_state)
    (p end_pos count : Z) : mf_state :=
  if u32 (count + 5) <=? end_pos - p
  then insert_positions buf st p (Z.to_nat count)
  else st.

(** What a caller that honours the contract may still do once the scan
    has passed position [lo] of a buffer of [end_pos] bytes: search with
    [max_len] clamped to the bytes that remain, skip inside the buffer. *)
Definition in_contract (lo end_pos : Z) (c : call) : Prop :=
  match c with
  | Search cur_pos _ max_len _ _ =>
      lo <= cur_pos /\ max_len <= end_pos - cur_pos
  | Skip cur_pos end_pos' count =>
      lo <= cur_pos /\ end_pos' = end_pos /\ 0 < count
      /\ cur_pos + count <= end_pos
  end.

End Matchfinder.

(** ** Chains and the invariant of the index *)

(** [chain nt v l]: following [next_tab] from the node [v] visits the
    positions [l], in this order, and then reaches [0], the value that
    means "no earlier candidate". *)
Inductive chain (nt : list Z) : Z -> list Z -> Prop :=
  | chain_end : chain nt 0 []
  | chain_link v l :
      v <> 0 -> chain nt (arr_get nt v) l -> chain nt v (v :: l).

(** Positive positions, strictly decreasing, all below [bound]. *)
Fixpoint descending (bound : Z) (l : list Z) : Prop :=
  match l with
  | [] => True
  | v :: l' => 0 < v < bound /\ descending v l'
  end.

(** Every entry of the short table is [0] or a position below [n]; every
    bucket of the long table heads a descending chain below [n]. *)
Definition mf_inv (n : Z) (mf : hc_matchfinder) : Prop :=
  (forall h, arr_get (hash3_tab mf) h = 0
             \/ 0 < arr_get (hash3_tab mf) h < n)
  /\ (forall h, exists l,
         chain (next_tab mf) (arr_get (hash4_tab mf) h) l /\ descending n l).

(** The [len] bytes at [p] equal the [len] bytes at [m]. *)
Definition match_at (buf : list byte) (p m len : Z) : Prop :=
  forall i, 0 <= i < len -> byte_at buf (p + i) = byte_at buf (m + i).


(** The pair [(best_len, best_matchptr)] at label [out]: untouched, or a
    real match, longer than the [best_len] supplied, at a position of the
    index. *)
Definition out_ok (buf : list byte) (p bl0 max_len : Z) (r : Z * Z) : Prop :=
  (fst r = bl0 /\ snd r = p)
  \/ (bl0 < fst r <= max_len /\ 0 < snd r < p /\ match_at buf p (snd r) (fst r)).

(** The same for the values returned: the length and the offset are those
    supplied and [0], or the offset leads back to a position [m] with
    [0 < m < p] where the reported bytes are found. *)
Definition search_post (buf : list byte) (p bl0 max_len : Z)
    (r : search_result) : Prop :=
  (sr_len r = bl0 /\ sr_offset r = 0)
  \/ (bl0 < sr_len r <= max_len /\ 0 < p - sr_offset r < p
      /\ match_at buf p (p - sr_offset r) (sr_len r)).

(** What searches report when none of them touches the index: each returns
    the [best_len] it was given and offset [0]. *)
Definition quiet_outputs (cs : list call) : list (Z * Z) :=
  flat_map (fun c => match c with
                     | Search _ best_len _ _ _ => [(best_len, 0)]
                     | Skip _ _ _ => []
                     end) cs.

(** ** Concrete buffers and states *)

Definition buf_of (s : string) : list byte := list_byte_of_string s.

(** A matchfinder allocated for buffers of [max_bufsize] bytes and reset. *)
Definition fresh (max_bufsize : nat) : hc_matchfinder :=
  hc_matchfinder_init (mk_hc_matchfinder [] [] (replicate max_bufsize 0)).

(** The state in which a scan of [buf] starts: the caller has hashed the
    windows of position 0. *)
Definition scan_start (buf : list byte) : mf_state :=
  (fresh (length buf), hashes_at lz_hash_mul buf 0).

(** The state after the scan has inserted the first [count] positions. *)
Definition scanned (buf : list byte) (count : nat) : mf_state :=
  insert_positions lz_hash_mul buf (scan_start buf) 0 count.

Definition buf_aaaa : list byte := buf_of "AAAAAAAAAAAA".
Definition buf_abcx : list byte := buf_of "ABCXABCYZ".
Definition buf_alpha : list byte := buf_of "ABCDEFGHIJKLM".

(** "ABCDEFG" at 1, "ABCD" at 9 and "ABCDEFG" again at 15: from 15 the
    nearest candidate matches 4 bytes and the one behind it 7. *)
Definition buf_deep : list byte := buf_of "xABCDEFGyABCDzwABCDEFGvvvvv".

(** ** Definitions for the further properties *)

(** The positions a walk from [v] visits, computed: [None] when [fuel]
    nodes do not reach the value 0. *)
Fixpoint chain_walk (fuel : nat) (nt : list Z) (v : Z) : option (list Z) :=
  match fuel with
  | O => None
  | S fuel' =>
      if v =? 0 then Some []
      else match chain_walk fuel' nt (arr_get nt v) with
           | None => None
           | Some l => Some (v :: l)
           end
  end.

(** A history of calls at strictly increasing positions, the first of them
    at [n] or later. *)
Fixpoint calls_ok (n : Z) (cs : list call) : Prop :=
  match cs with
  | [] => True
  | c :: cs' => call_ok n c /\ calls_ok (call_end c) cs'
  end.

(** Two matchfinders that a caller cannot tell apart before position [n]:
    the same hash tables, chain-link tables of the same size, and from
    every bucket the same chain, whatever the links off the chains hold. *)
Definition same_index (n : Z) (mf1 mf2 : hc_matchfinder) : Prop :=
  hash3_tab mf1 = hash3_tab mf2
  /\ hash4_tab mf1 = hash4_tab mf2
  /\ length (next_tab mf1) = length (next_tab mf2)
  /\ (forall h, exists l,
         chain (next_tab mf1) (arr_get (hash4_tab mf1) h) l
         /\ chain (next_tab mf2) (arr_get (hash4_tab mf2) h) l
         /\ descending n l)
  /\ (forall h, arr_get (hash3_tab mf1) h = 0
                \/ 0 < arr_get (hash3_tab mf1) h < n).

(** The chain of bucket [h] once position [p] has been inserted with the
    4-byte hash [hash4]: [l] is the chain of [h] before and [l0] the chain
    of [hash4] before. *)
Definition chain_after (h hash4 p : Z) (len4 lenn : nat) (l l0 : list Z)
    : list Z :=
  if decide (h = hash4 /\ 0 <= hash4 < Z.of_nat len4) then
    if decide (p = 0) then []
    else if decide (0 <= p < Z.of_nat lenn) then p :: l0 else [p]
  else l.

(** The match at [snd r] stops at [fst r]: on [max_len] or on a byte that
    differs. *)
Definition stops_at (buf : list byte) (p max_len : Z) (r : Z * Z) : Prop :=
  fst r < max_len ->
  byte_at buf (p + fst r) <> byte_at buf (snd r + fst r).

(** The state of a scan that has reset the matchfinder [mf0], hashed the
    windows of position 0 and inserted every position below [n], by
    searches with [max_len >= 5] or by skips whose test passes. *)
Definition scan_state (lz_hash : Z -> Z -> Z) (buf : list byte)
    (mf0 : hc_matchfinder) (n : nat) : mf_state :=
  insert_positions lz_hash buf
    (hc_matchfinder_init mf0, hashes_at lz_hash buf 0) 0 n.

(** [match_at], computed. *)
Definition match_atb (buf : list byte) (p m len : Z) : bool :=
  forallb (fun i => byte_at buf (p + Z.of_nat i) =? byte_at buf (m + Z.of_nat i))
    (seq 0 (Z.to_nat len)).

(** [r] is a match at a node of the chain [l], among its first [d] nodes,
    and every node before it has a strictly shorter match. *)
Definition closest_on (buf : list byte) (p max_len d : Z) (l : list Z)
    (r : Z * Z) : Prop :=
  exists pre rest,
    l = pre ++ snd r :: rest
    /\ Z.of_nat (length pre) < d
    /\ forall w k, In w pre -> k <= max_len -> match_at buf p w k ->
                     k < fst r.

(** * Properties *)

(** ** Arrays *)

Lemma arr_get_set_ne (a : list Z) (i j v : Z) :
  j <> i -> arr_get (arr_set a i v) j = arr_get a j.
Proof.
  intros Hne. unfold arr_get, arr_set.
  destruct (j <? 0) eqn:Hj; [reflexivity|].
  destruct (i <? 0) eqn:Hi; [reflexivity|].
  rewrite list_lookup_insert_ne; [reflexivity|]. lia.
Qed.

Lemma arr_get_set_eq (a : list Z) (i v : Z) :
  0 <= i < Z.of_nat (length a) -> arr_get (arr_set a i v) i = v.
Proof.
  intros Hi. unfold arr_get, arr_set.
  destruct (i <? 0) eqn:E; [lia|].
  rewrite list_lookup_insert_eq; [reflexivity|]. lia.
Qed.

Lemma arr_get_outside (a : list Z) (i : Z) :
  ~ 0 <= i < Z.of_nat (length a) -> arr_get a i = 0.
Proof.
  intros Hi. unfold arr_get.
  destruct (i <? 0) eqn:E; [reflexivity|].
  rewrite (lookup_ge_None_2 a); [reflexivity|]. lia.
Qed.

Lemma arr_set_length (a : list Z) (i v : Z) :
  length (arr_set a i v) = length a.
Proof. unfold arr_set. destruct (i <? 0); [reflexivity|apply length_insert]. Qed.

(** Reading the slot just written gives the value written, or [0] when the
    slot is outside the array. *)
Lemma arr_get_set_same (a : list Z) (i v : Z) :
  arr_get (arr_set a i v) i = v \/ arr_get (arr_set a i v) i = 0.
Proof.
  destruct (decide (0 <= i < Z.of_nat (length a))) as [Hi|Hi].
  - left. by apply arr_get_set_eq.
  - right. apply arr_get_outside. by rewrite arr_set_length.
Qed.

Lemma arr_get_replicate (n : nat) (i : Z) : arr_get (replicate n 0) i = 0.
Proof.
  unfold arr_get. destruct (i <? 0); [reflexivity|].
  destruct (replicate n 0 !! Z.to_nat i) eqn:E; [|reflexivity].
  apply lookup_replicate in E. simpl. tauto.
Qed.

(** ** Bytes and little-endian windows *)

Lemma byte_at_range (buf : list byte) (i : Z) : 0 <= byte_at buf i < 256.
Proof.
  unfold byte_at. destruct (i <? 0); [lia|].
  pose proof (Byte.to_N_bounded (default x00 (buf !! Z.to_nat i))). lia.
Qed.

Lemma lor_low (a x k : Z) :
  0 <= k -> 0 <= a < 2 ^ k -> Z.lor a (x * 2 ^ k) = a + x * 2 ^ k.
Proof.
  intros Hk Ha.
  assert (Hland : Z.land a (x * 2 ^ k) = 0).
  { apply Z.bits_inj'. intros n Hn. rewrite Z.land_spec, Z.bits_0.
    destruct (Z.lt_ge_cases n k) as [Hlt|Hge].
    - rewrite Z.mul_pow2_bits_low by lia. apply andb_false_r.
    - rewrite <- (Z.mod_small a (2 ^ k)) by lia.
      rewrite Z.mod_pow2_bits_high by lia. reflexivity. }
  rewrite <- Z.lxor_lor by exact Hland.
  symmetry. apply Z.add_nocarry_lxor. exact Hland.
Qed.

Lemma load_u32_unaligned_sum (buf : list byte) (p : Z) :
  load_u32_unaligned buf p
  = byte_at buf p + byte_at buf (p + 1) * 2 ^ 8
    + byte_at buf (p + 2) * 2 ^ 16 + byte_at buf (p + 3) * 2 ^ 24.
Proof.
  unfold load_u32_unaligned.
  pose proof (byte_at_range buf p). pose proof (byte_at_range buf (p + 1)).
  pose proof (byte_at_range buf (p + 2)). pose proof (byte_at_range buf (p + 3)).
  rewrite !Z.shiftl_mul_pow2 by lia.
  rewrite (lor_low (byte_at buf (p + 2) * 2 ^ 16) (byte_at buf (p + 3)) 24) by lia.
  replace (byte_at buf (p + 2) * 2 ^ 16 + byte_at buf (p + 3) * 2 ^ 24)
    with ((byte_at buf (p + 2) + byte_at buf (p + 3) * 2 ^ 8) * 2 ^ 16) by lia.
  rewrite (lor_low (byte_at buf (p + 1) * 2 ^ 8) _ 16) by lia.
  replace (byte_at buf (p + 1) * 2 ^ 8
           + (byte_at buf (p + 2) + byte_at buf (p + 3) * 2 ^ 8) * 2 ^ 16)
    with ((byte_at buf (p + 1) + byte_at buf (p + 2) * 2 ^ 8
           + byte_at buf (p + 3) * 2 ^ 16) * 2 ^ 8) by lia.
  rewrite (lor_low (byte_at buf p) _ 8) by lia. lia.
Qed.

Lemma load_u24_unaligned_sum (buf : list byte) (p : Z) :
  load_u24_unaligned buf p
  = byte_at buf p + byte_at buf (p + 1) * 2 ^ 8 + byte_at buf (p + 2) * 2 ^ 16.
Proof.
  unfold load_u24_unaligned.
  pose proof (byte_at_range buf p). pose proof (byte_at_range buf (p + 1)).
  pose proof (byte_at_range buf (p + 2)).
  rewrite !Z.shiftl_mul_pow2 by lia.
  rewrite (lor_low (byte_at buf (p + 1) * 2 ^ 8) (byte_at buf (p + 2)) 16) by lia.
  replace (byte_at buf (p + 1) * 2 ^ 8 + byte_at buf (p + 2) * 2 ^ 16)
    with ((byte_at buf (p + 1) + byte_at buf (p + 2) * 2 ^ 8) * 2 ^ 8) by lia.
  rewrite (lor_low (byte_at buf p) _ 8) by lia. lia.
Qed.

Lemma loaded_u32_to_u24_load (buf : list byte) (p : Z) :
  loaded_u32_to_u24 (load_u32_unaligned buf p) = load_u24_unaligned buf p.
Proof.
  unfold loaded_u32_to_u24.
  change 16777215 with (Z.ones 24). rewrite Z.land_ones by lia.
  rewrite load_u32_unaligned_sum, load_u24_unaligned_sum.
  pose proof (byte_at_range buf p). pose proof (byte_at_range buf (p + 1)).
  pose proof (byte_at_range buf (p + 2)). pose proof (byte_at_range buf (p + 3)).
  rewrite Z.mod_add by lia.
  apply Z.mod_small. lia.
Qed.

Lemma load_u32_unaligned_eq (buf : list byte) (p m : Z) :
  load_u32_unaligned buf m = load_u32_unaligned buf p -> match_at buf p m 4.
Proof.
  rewrite !load_u32_unaligned_sum. intros Heq i Hi.
  pose proof (byte_at_range buf p). pose proof (byte_at_range buf (p + 1)).
  pose proof (byte_at_range buf (p + 2)). pose proof (byte_at_range buf (p + 3)).
  pose proof (byte_at_range buf m). pose proof (byte_at_range buf (m + 1)).
  pose proof (byte_at_range buf (m + 2)). pose proof (byte_at_range buf (m + 3)).
  assert (i = 0 \/ i = 1 \/ i = 2 \/ i = 3) as [->|[->|[->| ->]]] by lia;
    rewrite ?Z.add_0_r; lia.
Qed.

Lemma load_u24_unaligned_eq (buf : list byte) (p m : Z) :
  load_u24_unaligned buf m = load_u24_unaligned buf p -> match_at buf p m 3.
Proof.
  rewrite !load_u24_unaligned_sum. intros Heq i Hi.
  pose proof (byte_at_range buf p). pose proof (byte_at_range buf (p + 1)).
  pose proof (byte_at_range buf (p + 2)).
  pose proof (byte_at_range buf m). pose proof (byte_at_range buf (m + 1)).
  pose proof (byte_at_range buf (m + 2)).
  assert (i = 0 \/ i = 1 \/ i = 2) as [->|[->| ->]] by lia;
    rewrite ?Z.add_0_r; lia.
Qed.

(** ** Match extension *)

Lemma lz_extend_loop_spec (buf : list byte) (s m max_len : Z) (fuel : nat) :
  forall len,
    let r := lz_extend_loop fuel buf s m len max_len in
    len <= r /\ r <= Z.max len max_len
    /\ forall i, len <= i < r -> byte_at buf (s + i) = byte_at buf (m + i).
Proof.
  induction fuel as [|fuel IH]; intros len; simpl.
  - repeat split; lia.
  - destruct (len <? max_len) eqn:Hlt; simpl; [|repeat split; lia].
    destruct (byte_at buf (s + len) =? byte_at buf (m + len)) eqn:Hb;
      [|repeat split; lia].
    destruct (IH (len + 1)) as (H1 & H2 & H3).
    repeat split; try lia.
    intros i Hi. destruct (decide (i = len)) as [->|Hne]; [lia|].
    apply H3. lia.
Qed.

Lemma lz_extend_match (buf : list byte) (p m start max_len : Z) :
  start <= max_len ->
  match_at buf p m start ->
  start <= lz_extend buf p m start max_len <= max_len
  /\ match_at buf p m (lz_extend buf p m start max_len).
Proof.
  intros Hle Hstart. unfold lz_extend.
  destruct (lz_extend_loop_spec buf p m max_len
              (Z.to_nat (max_len - start)) start) as (H1 & H2 & H3).
  split; [lia|].
  intros i Hi. destruct (Z.lt_ge_cases i start); [apply Hstart; lia|].
  apply H3. lia.
Qed.

(** ** The walks terminate within their fuel *)

Section Termination.
Variable UNALIGNED_ACCESS_IS_FAST : bool.

Lemma u32_range (z : Z) : 0 <= u32 z < 2 ^ 32.
Proof. unfold u32. apply Z.mod_pos_bound. lia. Qed.

Lemma u32_small (z : Z) : 0 <= z < 2 ^ 32 -> u32 z = z.
Proof. unfold u32. apply Z.mod_small. Qed.

Lemma depth_step (d : Z) (fuel : nat) :
  (Z.to_nat (u32 (d - 1)) < S fuel)%nat ->
  u32 (d - 1) <> 0 ->
  (Z.to_nat (u32 (u32 (d - 1) - 1)) < fuel)%nat.
Proof.
  intros Hf Hnz. pose proof (u32_range (d - 1)).
  rewrite (u32_small (u32 (d - 1) - 1)) by lia. lia.
Qed.

Lemma find_len4_terminates (mf : hc_matchfinder) (buf : list byte)
    (seq4 : Z) (fuel : nat) :
  forall v d, (Z.to_nat (u32 (d - 1)) < fuel)%nat ->
    is_Some (find_len4 fuel mf buf seq4 v d).
Proof.
  induction fuel as [|fuel IH]; intros v d Hf; [lia|]. simpl.
  destruct (_ =? seq4); [eauto|].
  destruct (arr_get (next_tab mf) v =? 0); [eauto|].
  destruct (u32 (d - 1) =? 0) eqn:Hd; [eauto|].
  apply IH. apply depth_step; [exact Hf|lia].
Qed.

Lemma find_longer_terminates (mf : hc_matchfinder) (buf : list byte)
    (in_next max_len nice_len : Z) (fuel : nat) :
  forall v d bl bm, (Z.to_nat (u32 (d - 1)) < fuel)%nat ->
    is_Some (find_longer UNALIGNED_ACCESS_IS_FAST fuel mf buf in_next
               max_len nice_len v d bl bm).
Proof.
  induction fuel as [|fuel IH]; intros v d bl bm Hf; [lia|]. simpl.
  destruct (longer_candidate _ _ _ _ _).
  - destruct (_ && _); [eauto|].
    destruct (arr_get (next_tab mf) v =? 0); [eauto|].
    destruct (u32 (d - 1) =? 0) eqn:Hd; [eauto|].
    apply IH. apply depth_step; [exact Hf|lia].
  - destruct (arr_get (next_tab mf) v =? 0); [eauto|].
    destruct (u32 (d - 1) =? 0) eqn:Hd; [eauto|].
    apply IH. apply depth_step; [exact Hf|lia].
Qed.

Lemma find_len4_depth (mf : hc_matchfinder) (buf : list byte)
    (seq4 : Z) (fuel : nat) :
  forall v d v' d',
    find_len4 fuel mf buf seq4 v d = Some (Break v' d') ->
    u32 (d' - 1) <= u32 (d - 1).
Proof.
  induction fuel as [|fuel IH]; intros v d v' d'; simpl; [discriminate|].
  destruct (_ =? seq4); [intros [= _ <-]; lia|].
  destruct (arr_get (next_tab mf) v =? 0); [discriminate|].
  destruct (u32 (d - 1) =? 0) eqn:Hd; [discriminate|].
  intros Hrec. apply IH in Hrec.
  pose proof (u32_range (d - 1)).
  rewrite (u32_small (u32 (d - 1) - 1)) in Hrec by lia. lia.
Qed.

Lemma search_chains_terminates (mf : hc_matchfinder) (buf : list byte)
    (in_next best_len max_len nice_len max_search_depth c3 c4 : Z) :
  is_Some (search_chains UNALIGNED_ACCESS_IS_FAST mf buf in_next best_len
             max_len nice_len max_search_depth c3 c4).
Proof.
  unfold search_chains.
  assert (Hfuel : (Z.to_nat (u32 (max_search_depth - 1))
                   < depth_fuel max_search_depth)%nat)
    by (unfold depth_fuel; lia).
  destruct (best_len <? 4).
  - destruct (c3 =? 0); [eauto|].
    destruct (_ && _); (destruct (c4 =? 0); [eauto|]);
      (destruct (find_len4_terminates mf buf (load_u32_unaligned buf in_next)
                  _ c4 max_search_depth Hfuel) as [e He];
       rewrite He; destruct e as [v d|]; [|eauto];
       destruct (_ >=? nice_len); [eauto|];
       destruct (arr_get (next_tab mf) v =? 0); [eauto|];
       destruct (u32 (d - 1) =? 0) eqn:Hd; [eauto|];
       apply find_longer_terminates;
       apply find_len4_depth in He;
       pose proof (u32_range (d - 1)); unfold depth_fuel;
       rewrite (u32_small (u32 (d - 1) - 1)) by lia; lia).
  - destruct (_ || _); [eauto|]. by apply find_longer_terminates.
Qed.

Lemma longest_match_terminates (lz_hash : Z -> Z -> Z)
    (mf : hc_matchfinder) (buf : list byte)
    (cur_pos best_len max_len nice_len max_search_depth : Z)
    (next_hashes : Z * Z) :
  is_Some (hc_matchfinder_longest_match lz_hash UNALIGNED_ACCESS_IS_FAST
             mf buf cur_pos best_len max_len nice_len max_search_depth
             next_hashes).
Proof.
  unfold hc_matchfinder_longest_match.
  destruct (max_len <? 5); [eauto|].
  match goal with
  | |- context [search_chains ?f ?m ?b ?i ?bl ?ml ?nl ?d ?c3 ?c4] =>
      destruct (search_chains_terminates m b i bl ml nl d c3 c4)
        as [[bl' bm'] ->]
  end.
  eauto.
Qed.
End Termination.

(** ** Chains *)

Lemma chain_functional (nt : list Z) (v : Z) (l l' : list Z) :
  chain nt v l -> chain nt v l' -> l = l'.
Proof.
  intros H. revert l'. induction H as [|v l Hv H IH]; intros l' H'.
  - inversion H'; [reflexivity|congruence].
  - inversion H' as [|v' l'' Hv' H'']; subst; [congruence|].
    f_equal. by apply IH.
Qed.

Lemma descending_weaken (n n' : Z) (l : list Z) :
  n <= n' -> descending n l -> descending n' l.
Proof. destruct l as [|v l]; simpl; [tauto|]. intros ? [? ?]. split; [lia|done]. Qed.

Lemma descending_Forall (n : Z) (l : list Z) :
  descending n l -> Forall (fun v => 0 < v < n) l.
Proof.
  revert n. induction l as [|v l IH]; intros n; simpl; [constructor|].
  intros [Hv Hl]. constructor; [exact Hv|].
  apply IH in Hl. eapply Forall_impl; [exact Hl|]. simpl. intros; lia.
Qed.

Lemma descending_sorted (n : Z) (l : list Z) :
  descending n l -> StronglySorted Z.gt l.
Proof.
  revert n. induction l as [|v l IH]; intros n; simpl; [constructor|].
  intros [Hv Hl]. constructor; [by eapply IH|].
  apply descending_Forall in Hl. eapply Forall_impl; [exact Hl|].
  simpl. intros; lia.
Qed.

(** Writing the link of a position that is on no node of a chain leaves
    the chain as it is. *)
Lemma chain_set_above (nt : list Z) (p w n v : Z) (l : list Z) :
  n <= p -> chain nt v l -> descending n l -> chain (arr_set nt p w) v l.
Proof.
  intros Hp H. revert n Hp. induction H as [|v l Hv H IH]; intros n Hp Hd.
  - constructor.
  - destruct Hd as [Hvn Hd]. constructor; [exact Hv|].
    rewrite arr_get_set_ne by lia. apply (IH v); [lia|exact Hd].
Qed.

(** ** The invariant *)

Lemma mf_inv_init (mf : hc_matchfinder) : mf_inv 0 (hc_matchfinder_init mf).
Proof.
  split; intros h; unfold hc_matchfinder_init;
    cbn [hash3_tab hash4_tab next_tab]; rewrite arr_get_replicate.
  - by left.
  - exists []. split; [constructor|exact I].
Qed.

Lemma mf_inv_mono (n n' : Z) (mf : hc_matchfinder) :
  n <= n' -> mf_inv n mf -> mf_inv n' mf.
Proof.
  intros Hn [H3 H4]. split; intros h.
  - destruct (H3 h); [by left|right; lia].
  - destruct (H4 h) as (l & Hc & Hd). exists l. split; [exact Hc|].
    by eapply descending_weaken.
Qed.

Section Invariant.
Variable lz_hash : Z -> Z -> Z.
Variable UNALIGNED_ACCESS_IS_FAST : bool.

Lemma mf_inv_insert (buf : list byte) (n p : Z) (st : mf_state) :
  0 <= n <= p -> p < 2 ^ 32 ->
  mf_inv n (fst st) ->
  mf_inv (p + 1) (fst (insert_position lz_hash buf st p)).
Proof.
  intros Hn Hp [H3 H4]. destruct st as [mf [hash3 hash4]]. simpl in *.
  rewrite (u32_small p) by lia.
  split; intros h; simpl.
  - destruct (decide (h = hash3)) as [->|Hne].
    + destruct (arr_get_set_same (hash3_tab mf) hash3 p) as [-> | ->];
        [|by left].
      destruct (decide (p = 0)); [by left|right; lia].
    + rewrite arr_get_set_ne by exact Hne.
      destruct (H3 h); [by left|right; lia].
  - destruct (H4 hash4) as (l0 & Hc0 & Hd0).
    assert (Hold : forall h', exists l,
               chain (arr_set (next_tab mf) p (arr_get (hash4_tab mf) hash4))
                 (arr_get (hash4_tab mf) h') l
               /\ descending (p + 1) l).
    { intros h'. destruct (H4 h') as (l & Hc & Hd). exists l. split.
      - eapply chain_set_above; [|exact Hc|exact Hd]. lia.
      - eapply descending_weaken; [|exact Hd]. lia. }
    destruct (decide (h = hash4)) as [->|Hne];
      [|rewrite arr_get_set_ne by exact Hne; apply Hold].
    destruct (decide (0 <= hash4 < Z.of_nat (length (hash4_tab mf))))
      as [Hin|Hout].
    + rewrite arr_get_set_eq by exact Hin.
      destruct (decide (p = 0)) as [->|Hp0].
      { exists []. split; [constructor|exact I]. }
      destruct (decide (0 <= p < Z.of_nat (length (next_tab mf))))
        as [Hpin|Hpout].
      * exists (p :: l0). split.
        -- constructor; [exact Hp0|]. rewrite arr_get_set_eq by exact Hpin.
           eapply chain_set_above; [|exact Hc0|exact Hd0]. lia.
        -- simpl. split; [lia|]. eapply descending_weaken; [|exact Hd0]. lia.
      * exists [p]. split.
        -- constructor; [exact Hp0|].
           rewrite (arr_get_outside (arr_set _ p _) p)
             by (by rewrite arr_set_length).
           constructor.
        -- simpl. split; [lia|exact I].
    + rewrite (arr_get_outside (arr_set _ hash4 _) hash4)
        by (by rewrite arr_set_length).
      exists []. split; [constructor|exact I].
Qed.

Lemma mf_inv_insert_positions (buf : list byte) (count : nat) :
  forall n p st,
    0 <= n <= p -> p + Z.of_nat count <= 2 ^ 32 ->
    mf_inv n (fst st) ->
    mf_inv (p + Z.of_nat count)
      (fst (insert_positions lz_hash buf st p count)).
Proof.
  induction count as [|count IH]; intros n p st Hn Hp Hinv; simpl.
  - rewrite Z.add_0_r. eapply mf_inv_mono; [|exact Hinv]. lia.
  - replace (p + Z.of_nat (S count)) with (p + 1 + Z.of_nat count) by lia.
    apply (IH (p + 1)); [lia|lia|].
    eapply mf_inv_insert; [|lia|exact Hinv]. lia.
Qed.
End Invariant.

(** ** What a search returns *)

Section SearchCorrect.
Variable lz_hash : Z -> Z -> Z.
Variable UNALIGNED_ACCESS_IS_FAST : bool.
Variable buf : list byte.

Lemma chain_nonzero_inv (nt : list Z) (p v : Z) (l : list Z) :
  chain nt v l -> descending p l -> v <> 0 ->
  0 < v < p
  /\ exists l', chain nt (arr_get nt v) l' /\ descending p l'.
Proof.
  intros Hc Hd Hv. inversion Hc as [|v' l' Hv' Hc']; subst; [congruence|].
  destruct Hd as [Hvp Hd]. split; [exact Hvp|].
  exists l'. split; [exact Hc'|]. eapply descending_weaken; [|exact Hd]. lia.
Qed.

Lemma candidate_extend (p v bl max_len : Z) :
  4 <= max_len ->
  longer_candidate UNALIGNED_ACCESS_IS_FAST buf p v bl = true ->
  let len := lz_extend buf p v (if UNALIGNED_ACCESS_IS_FAST then 4 else 0)
               max_len in
  len <= max_len /\ match_at buf p v len.
Proof.
  intros Hmax Hcand. unfold longer_candidate in Hcand.
  destruct UNALIGNED_ACCESS_IS_FAST.
  - apply andb_true_iff in Hcand as [_ Hfirst]. apply Z.eqb_eq in Hfirst.
    destruct (lz_extend_match buf p v 4 max_len) as [H1 H2];
      [lia|by apply load_u32_unaligned_eq|]. split; [lia|exact H2].
  - destruct (lz_extend_match buf p v 0 max_len) as [H1 H2];
      [lia|intros i Hi; lia|]. split; [lia|exact H2].
Qed.

Lemma find_longer_ok (mf : hc_matchfinder) (p bl0 max_len nice_len : Z)
    (fuel : nat) :
  4 <= max_len ->
  forall v d bl bm l r,
    chain (next_tab mf) v l -> descending p l -> v <> 0 ->
    out_ok buf p bl0 max_len (bl, bm) ->
    find_longer UNALIGNED_ACCESS_IS_FAST fuel mf buf p max_len nice_len
      v d bl bm = Some r ->
    out_ok buf p bl0 max_len r.
Proof.
  intros Hmax.
  induction fuel as [|fuel IH]; intros v d bl bm l r Hc Hd Hv Hok;
    simpl; [discriminate|].
  destruct (chain_nonzero_inv _ _ _ _ Hc Hd Hv) as (Hvp & l' & Hc' & Hd').
  assert (Hbl : bl0 <= bl) by (destruct Hok as [[? ?]|[? _]]; simpl in *; lia).
  destruct (longer_candidate _ _ _ _ _) eqn:Hcand.
  - destruct (candidate_extend p v bl max_len Hmax Hcand) as [Hlen Hm].
    set (len := lz_extend buf p v _ max_len) in *.
    assert (Hok' : out_ok buf p bl0 max_len
                     (if len >? bl then len else bl,
                      if len >? bl then v else bm)).
    { destruct (len >? bl) eqn:Hgt; [|exact Hok].
      right. simpl. repeat split; try lia. exact Hm. }
    destruct ((len >? bl) && _); [by intros [= <-]|].
    destruct (arr_get (next_tab mf) v =? 0) eqn:Hnext; [by intros [= <-]|].
    destruct (u32 (d - 1) =? 0); [by intros [= <-]|].
    apply (IH _ _ _ _ l'); [exact Hc'|exact Hd'|lia|exact Hok'].
  - destruct (arr_get (next_tab mf) v =? 0) eqn:Hnext; [by intros [= <-]|].
    destruct (u32 (d - 1) =? 0); [by intros [= <-]|].
    apply (IH _ _ _ _ l'); [exact Hc'|exact Hd'|lia|exact Hok].
Qed.

Lemma find_len4_ok (mf : hc_matchfinder) (p seq4 : Z) (fuel : nat) :
  forall v d l v' d',
    chain (next_tab mf) v l -> descending p l -> v <> 0 ->
    find_len4 fuel mf buf seq4 v d = Some (Break v' d') ->
    load_u32_unaligned buf v' = seq4 /\ v' <> 0
    /\ exists l', chain (next_tab mf) v' l' /\ descending p l'.
Proof.
  induction fuel as [|fuel IH]; intros v d l v' d' Hc Hd Hv;
    simpl; [discriminate|].
  destruct (chain_nonzero_inv _ _ _ _ Hc Hd Hv) as (Hvp & l' & Hc' & Hd').
  destruct (load_u32_unaligned buf v =? seq4) eqn:Heq.
  - intros [= <- <-]. apply Z.eqb_eq in Heq. eauto.
  - destruct (arr_get (next_tab mf) v =? 0) eqn:Hnext; [discriminate|].
    destruct (u32 (d - 1) =? 0); [discriminate|].
    apply (IH _ _ l'); [exact Hc'|exact Hd'|lia].
Qed.

Lemma search_chains_ok (mf : hc_matchfinder)
    (p bl0 max_len nice_len depth c3 c4 : Z) (l : list Z) (r : Z * Z) :
  5 <= max_len ->
  c3 = 0 \/ 0 < c3 < p ->
  chain (next_tab mf) c4 l -> descending p l ->
  search_chains UNALIGNED_ACCESS_IS_FAST mf buf p bl0 max_len nice_len
    depth c3 c4 = Some r ->
  out_ok buf p bl0 max_len r.
Proof.
  intros Hmax Hc3 Hc Hd. unfold search_chains.
  assert (Hsame : out_ok buf p bl0 max_len (bl0, p)) by (by left).
  destruct (bl0 <? 4) eqn:Hbl.
  - destruct (c3 =? 0) eqn:Hc3z; [by intros [= <-]|].
    set (b3 := if (bl0 <? 3) && _ then (3, c3) else (bl0, p)).
    assert (Hb3 : out_ok buf p bl0 max_len b3).
    { subst b3. destruct (_ && _) eqn:Hand; [|exact Hsame].
      apply andb_true_iff in Hand as [Hlt Heq]. apply Z.eqb_eq in Heq.
      rewrite loaded_u32_to_u24_load in Heq.
      right. simpl. repeat split; try lia.
      by apply load_u24_unaligned_eq. }
    destruct b3 as [bl bm].
    destruct (c4 =? 0) eqn:Hc4z; [by intros [= <-]|].
    destruct (find_len4 _ mf buf _ c4 depth) as [[v d|]|] eqn:Hfind;
      [|by intros [= <-]|discriminate].
    assert (Hc4 : c4 <> 0) by lia.
    destruct (find_len4_ok _ _ _ _ _ _ _ _ _ Hc Hd Hc4 Hfind)
      as (Hload & Hv & l' & Hc' & Hd').
    destruct (chain_nonzero_inv _ _ _ _ Hc' Hd' Hv) as (Hvp & l'' & Hc'' & Hd'').
    destruct (lz_extend_match buf p v 4 max_len) as [Hlen Hm];
      [lia|by apply load_u32_unaligned_eq|].
    assert (Hok : out_ok buf p bl0 max_len
                    (lz_extend buf p v 4 max_len, v)).
    { right. simpl. repeat split; try lia. exact Hm. }
    destruct (_ >=? nice_len); [by intros [= <-]|].
    destruct (arr_get (next_tab mf) v =? 0) eqn:Hnext; [by intros [= <-]|].
    destruct (u32 (d - 1) =? 0); [by intros [= <-]|].
    apply (find_longer_ok mf p bl0 max_len nice_len _ ltac:(lia) _ _ _ _ l'');
      [exact Hc''|exact Hd''|lia|exact Hok].
  - destruct (_ || _) eqn:Hor; [by intros [= <-]|].
    apply orb_false_iff in Hor as [Hc4z _].
    apply (find_longer_ok mf p bl0 max_len nice_len _ ltac:(lia) _ _ _ _ l);
      [exact Hc|exact Hd|lia|exact Hsame].
Qed.

Lemma longest_match_spec (n p bl0 max_len nice_len depth : Z)
    (st : mf_state) :
  mf_inv n (fst st) -> 0 <= n <= p -> p < 2 ^ 32 ->
  exists r,
    hc_matchfinder_longest_match lz_hash UNALIGNED_ACCESS_IS_FAST
      (fst st) buf p bl0 max_len nice_len depth (snd st) = Some r
    /\ search_post buf p bl0 max_len r
    /\ (sr_mf r, sr_next_hashes r) = after_search lz_hash buf st p max_len.
Proof.
  intros [H3 H4] Hn Hp. destruct st as [mf nh]. simpl fst in *; simpl snd in *.
  unfold hc_matchfinder_longest_match, after_search.
  destruct (max_len <? 5) eqn:Hml.
  - eexists. split; [reflexivity|]. split; [|reflexivity].
    left. simpl. rewrite Z.sub_diag. split; reflexivity.
  - match goal with
    | |- context [search_chains ?f ?m ?b ?i ?bl ?ml ?nl ?d ?c3 ?c4] =>
        destruct (search_chains_terminates f m b i bl ml nl d c3 c4)
          as [[bl' bm] Hs]
    end.
    rewrite Hs. eexists. split; [reflexivity|]. split; [|reflexivity].
    destruct (H4 (snd nh)) as (l & Hc & Hd).
    eapply search_chains_ok in Hs.
    + destruct Hs as [[Hb Hm]|(Hb & Hm & Hmatch)]; simpl in *.
      * left. subst. cbn [sr_len sr_offset]. rewrite Z.sub_diag.
        split; reflexivity.
      * right. cbn [sr_len sr_offset]. rewrite (u32_small (p - bm)) by lia.
        replace (p - (p - bm)) with bm by lia. repeat split; try lia.
        exact Hmatch.
    + lia.
    + destruct (H3 (fst nh)); [by left|right; lia].
    + simpl. eapply chain_set_above; [|exact Hc|exact Hd]. lia.
    + eapply descending_weaken; [|exact Hd]. lia.
Qed.
End SearchCorrect.

(** ** Skipping *)

Section SkipCorrect.
Variable lz_hash : Z -> Z -> Z.
Variable UNALIGNED_ACCESS_IS_FAST : bool.
Variable buf : list byte.

Lemma skip_loop_inserts (k : nat) :
  forall fuel st p,
    (k < fuel)%nat ->
    skip_loop lz_hash fuel (fst st) buf p (p + Z.of_nat (S k))
      (fst (snd st)) (snd (snd st))
    = Some (insert_positions lz_hash buf st p (S k)).
Proof.
  induction k as [|k IH]; intros fuel st p Hf;
    (destruct fuel as [|fuel]; [lia|]).
  - cbn -[Z.add Z.of_nat]. replace (p + 1 =? p + Z.of_nat 1) with true
      by (symmetry; apply Z.eqb_eq; lia).
    reflexivity.
  - change (insert_positions lz_hash buf st p (S (S k)))
      with (insert_positions lz_hash buf
              (insert_position lz_hash buf st p) (p + 1) (S k)).
    rewrite <- (IH fuel (insert_position lz_hash buf st p) (p + 1)) by lia.
    replace (p + 1 + Z.of_nat (S k)) with (p + Z.of_nat (S (S k))) by lia.
    cbn -[Z.add Z.of_nat].
    replace (p + 1 =? p + Z.of_nat (S (S k))) with false
      by (symmetry; apply Z.eqb_neq; lia).
    reflexivity.
Qed.

(** With [stop_ptr] not ahead of [in_next], the loop never meets its exit
    test, whatever the fuel. *)
Lemma skip_loop_diverges (fuel : nat) :
  forall mf p stop hash3 hash4,
    stop <= p -> skip_loop lz_hash fuel mf buf p stop hash3 hash4 = None.
Proof.
  induction fuel as [|fuel IH]; intros mf p stop hash3 hash4 Hs;
    [reflexivity|].
  cbn -[Z.add]. replace (p + 1 =? stop) with false
    by (symmetry; apply Z.eqb_neq; lia).
  apply IH. lia.
Qed.

Lemma skip_positions_spec (st : mf_state) (p end_pos count : Z) :
  0 < count ->
  exists r,
    hc_matchfinder_skip_positions lz_hash (fst st) buf p end_pos count
      (snd st) = Some r
    /\ sk_stop r = p + count
    /\ (sk_mf r, sk_next_hashes r) = after_skip lz_hash buf st p end_pos count.
Proof.
  intros Hc. unfold hc_matchfinder_skip_positions,
    hc_matchfinder_skip_positions_fuel, after_skip.
  destruct (u32 (count + 5) <=? end_pos - p).
  - destruct (Z.to_nat count) as [|k] eqn:Hk; [lia|].
    replace (p + count) with (p + Z.of_nat (S k)) by lia.
    rewrite skip_loop_inserts by lia.
    destruct (insert_positions lz_hash buf st p (S k)) as [mf' nh'].
    eexists. split; [reflexivity|]. split; reflexivity.
  - eexists. split; [reflexivity|]. split; [reflexivity|].
    by destruct st.
Qed.

(** ** Reachable states satisfy the invariant *)

Lemma after_search_inv (n p max_len : Z) (st : mf_state) :
  0 <= n <= p -> p < 2 ^ 32 -> mf_inv n (fst st) ->
  mf_inv (p + 1) (fst (after_search lz_hash buf st p max_len)).
Proof.
  intros Hn Hp Hinv. unfold after_search. destruct (max_len <? 5).
  - eapply mf_inv_mono; [|exact Hinv]. lia.
  - by eapply mf_inv_insert.
Qed.

Lemma after_skip_inv (n p end_pos count : Z) (st : mf_state) :
  0 <= n <= p -> 0 < count -> p + count <= 2 ^ 32 -> mf_inv n (fst st) ->
  mf_inv (p + count) (fst (after_skip lz_hash buf st p end_pos count)).
Proof.
  intros Hn Hc Hp Hinv. unfold after_skip. destruct (_ <=? _).
  - replace (p + count) with (p + Z.of_nat (Z.to_nat count)) by lia.
    eapply mf_inv_insert_positions; [exact Hn|lia|exact Hinv].
  - eapply mf_inv_mono; [|exact Hinv]. lia.
Qed.

Lemma reachable_inv (n : Z) (st : mf_state) :
  reachable lz_hash UNALIGNED_ACCESS_IS_FAST buf n st ->
  0 <= n /\ mf_inv n (fst st).
Proof.
  induction 1 as [mf nh|n st c st' out Hr [Hn Hinv] Hok Hrun].
  - split; [lia|apply mf_inv_init].
  - destruct c as [p bl ml nl d|p e cnt]; simpl in Hok, Hrun |- *.
    + destruct (longest_match_spec lz_hash UNALIGNED_ACCESS_IS_FAST buf
                  n p bl ml nl d st Hinv ltac:(lia) ltac:(lia))
        as (r & Hr' & _ & Hst).
      rewrite Hr' in Hrun. injection Hrun as <- _. rewrite Hst.
      split; [lia|]. eapply after_search_inv; [|lia|exact Hinv]. lia.
    + destruct Hok as (Hp & Hc & Hend).
      destruct (skip_positions_spec st p e cnt Hc) as (r & Hr' & _ & Hst).
      rewrite Hr' in Hrun. injection Hrun as <- _. rewrite Hst.
      split; [lia|]. eapply after_skip_inv; [|lia|lia|exact Hinv]. lia.
Qed.
End SkipCorrect.

(** ** Concrete reachable states *)

Lemma scanned_reachable (fast : bool) (buf : list byte) (count : nat) :
  (0 < count)%nat ->
  Z.of_nat count + 5 <= Z.of_nat (length buf) ->
  Z.of_nat (length buf) < 2 ^ 32 ->
  reachable lz_hash_mul fast buf (Z.of_nat count) (scanned buf count).
Proof.
  intros Hc Hlen Hbuf.
  pose (c := Skip 0 (Z.of_nat (length buf)) (Z.of_nat count)).
  change (Z.of_nat count) with (call_end c) at 1.
  apply (reach_call lz_hash_mul fast buf 0 (scan_start buf) c _ []).
  - apply reach_init.
  - simpl. lia.
  - unfold run_call, c.
    destruct (skip_positions_spec lz_hash_mul buf (scan_start buf) 0
                (Z.of_nat (length buf)) (Z.of_nat count) ltac:(lia))
      as (r & -> & _ & Hst).
    rewrite Hst. unfold after_skip.
    rewrite u32_small by lia.
    replace (_ <=? _) with true by (symmetry; apply Z.leb_le; lia).
    rewrite Nat2Z.id. reflexivity.
Qed.

Lemma scanned_search_reachable (fast : bool) (buf : list byte)
    (count : nat) (best_len max_len nice_len max_search_depth : Z) :
  (0 < count)%nat ->
  Z.of_nat count + 5 <= Z.of_nat (length buf) ->
  Z.of_nat (length buf) < 2 ^ 32 ->
  reachable lz_hash_mul fast buf (Z.of_nat count + 1)
    (after_search lz_hash_mul buf (scanned buf count) (Z.of_nat count)
       max_len).
Proof.
  intros Hc Hlen Hbuf.
  pose proof (scanned_reachable fast buf count Hc Hlen Hbuf) as Hr.
  pose (c := Search (Z.of_nat count) best_len max_len nice_len
               max_search_depth).
  change (Z.of_nat count + 1) with (call_end c).
  destruct (reachable_inv _ _ _ _ _ Hr) as [_ Hinv].
  destruct (longest_match_spec lz_hash_mul fast buf (Z.of_nat count)
              (Z.of_nat count) best_len max_len nice_len max_search_depth
              (scanned buf count) Hinv ltac:(lia) ltac:(lia))
    as (r & Hs & _ & Hst).
  apply (reach_call lz_hash_mul fast buf (Z.of_nat count)
           (scanned buf count) c _ [(sr_len r, sr_offset r)]).
  - exact Hr.
  - simpl. lia.
  - unfold run_call, c. rewrite Hs, Hst. reflexivity.
Qed.

(** ** The reset *)

(** C9 (as amended).  [hc_matchfinder_init] zeroes every bucket of the two
    hash tables and leaves the chain-link table as it was; in the state it
    leaves, every long-table bucket heads the empty chain, so no link is
    reachable. *)
Theorem init_clears_hash_tables (mf : hc_matchfinder) :
  length (hash3_tab (hc_matchfinder_init mf)) = Z.to_nat (2 ^ 15)
  /\ length (hash4_tab (hc_matchfinder_init mf)) = Z.to_nat (2 ^ 16)
  /\ (forall h, arr_get (hash3_tab (hc_matchfinder_init mf)) h = 0)
  /\ (forall h, arr_get (hash4_tab (hc_matchfinder_init mf)) h = 0)
  /\ next_tab (hc_matchfinder_init mf) = next_tab mf
  /\ (forall h, chain (next_tab (hc_matchfinder_init mf))
                  (arr_get (hash4_tab (hc_matchfinder_init mf)) h) []).
Proof.
  unfold hc_matchfinder_init; cbn [hash3_tab hash4_tab next_tab].
  repeat split; try apply length_replicate; try apply arr_get_replicate.
  intros h. rewrite arr_get_replicate. constructor.
Qed.

(** C9 (counterexample).  A matchfinder that has scanned four positions of
    "AAAAAAAAAAAA" holds the link 3 -> 2 in its chain-link table; the link
    is still there after the reset. *)
Lemma init_keeps_chain_links :
  arr_get (next_tab (hc_matchfinder_init (fst (scanned buf_aaaa 4)))) 3 = 2
  /\ ~ (forall i, arr_get (next_tab (hc_matchfinder_init
                                       (fst (scanned buf_aaaa 4)))) i = 0).
Proof.
  assert (H : arr_get (next_tab (hc_matchfinder_init
                                   (fst (scanned buf_aaaa 4)))) 3 = 2)
    by (vm_compute; reflexivity).
  split; [exact H|]. intros Hall. rewrite Hall in H. discriminate.
Qed.

(** ** The update made by a search *)

(** C4 (as amended).  A search with [max_len >= 5] updates the index with
    the entry of the current position exactly once, whatever the other
    arguments and whether or not a match is found: the short-table bucket
    is overwritten, the long-table bucket is overwritten and the chain link
    of the current position is set to the head that was there; nothing else
    changes.  A search with [max_len < 5] leaves the index and the
    precomputed hashes as they were. *)
Theorem search_inserts_once (lz_hash : Z -> Z -> Z) (fast : bool)
    (mf : hc_matchfinder) (buf : list byte)
    (cur_pos best_len max_len nice_len max_search_depth : Z)
    (next_hashes : Z * Z) :
  exists r,
    hc_matchfinder_longest_match lz_hash fast mf buf cur_pos best_len
      max_len nice_len max_search_depth next_hashes = Some r
    /\ (sr_mf r, sr_next_hashes r)
       = if max_len <? 5 then (mf, next_hashes)
         else ({| hash3_tab := arr_set (hash3_tab mf) (fst next_hashes)
                                 (u32 cur_pos);
                  hash4_tab := arr_set (hash4_tab mf) (snd next_hashes)
                                 (u32 cur_pos);
                  next_tab := arr_set (next_tab mf) cur_pos
                                (arr_get (hash4_tab mf) (snd next_hashes)) |},
               hashes_at lz_hash buf (cur_pos + 1)).
Proof.
  destruct (longest_match_terminates fast lz_hash mf buf cur_pos best_len
              max_len nice_len max_search_depth next_hashes) as [r Hr].
  exists r. split; [exact Hr|].
  unfold hc_matchfinder_longest_match in Hr.
  destruct (max_len <? 5); [by injection Hr as <-|].
  destruct (search_chains _ _ _ _ _ _ _ _ _ _) as [[bl bm]|];
    [|discriminate].
  by injection Hr as <-.
Qed.

(** C4 (counterexample).  On "ABCDEFGH" the scan skips positions 0 to 2
    and searches at 3; the search at position 4, where 4 bytes remain,
    then returns with the index untouched: the buckets of position 4 do
    not hold 4. *)
Lemma search_short_lookahead_no_insert :
  reachable lz_hash_mul true (buf_of "ABCDEFGH") 4
    (after_search lz_hash_mul (buf_of "ABCDEFGH")
       (scanned (buf_of "ABCDEFGH") 3) 3 5)
  /\ option_map sr_mf
       (hc_matchfinder_longest_match lz_hash_mul true
          (fst (after_search lz_hash_mul (buf_of "ABCDEFGH")
                  (scanned (buf_of "ABCDEFGH") 3) 3 5))
          (buf_of "ABCDEFGH") 4 0 4 4 4
          (snd (after_search lz_hash_mul (buf_of "ABCDEFGH")
                  (scanned (buf_of "ABCDEFGH") 3) 3 5)))
     = Some (fst (after_search lz_hash_mul (buf_of "ABCDEFGH")
                    (scanned (buf_of "ABCDEFGH") 3) 3 5))
  /\ arr_get (hash3_tab (fst (after_search lz_hash_mul (buf_of "ABCDEFGH")
                                (scanned (buf_of "ABCDEFGH") 3) 3 5)))
       (fst (snd (after_search lz_hash_mul (buf_of "ABCDEFGH")
                    (scanned (buf_of "ABCDEFGH") 3) 3 5))) <> 4
  /\ arr_get (hash4_tab (fst (after_search lz_hash_mul (buf_of "ABCDEFGH")
                                (scanned (buf_of "ABCDEFGH") 3) 3 5)))
       (snd (snd (after_search lz_hash_mul (buf_of "ABCDEFGH")
                    (scanned (buf_of "ABCDEFGH") 3) 3 5))) <> 4.
Proof.
  split.
  - apply (scanned_search_reachable true (buf_of "ABCDEFGH") 3 0 5 5 4);
      [lia|vm_compute; discriminate|reflexivity].
  - split; [reflexivity|]. split; vm_compute; discriminate.
Qed.

(** ** Chain order and causality *)

(** C3.  After a reset and any calls at strictly increasing positions,
    every long-table bucket heads a chain that visits strictly decreasing
    positions and ends on the value 0. *)
Theorem chain_order_invariant (lz_hash : Z -> Z -> Z) (fast : bool)
    (buf : list byte) (n : Z) (st : mf_state) (h : Z) :
  reachable lz_hash fast buf n st ->
  exists l,
    chain (next_tab (fst st)) (arr_get (hash4_tab (fst st)) h) l
    /\ StronglySorted Z.gt l.
Proof.
  intros Hr. apply reachable_inv in Hr as [_ [_ H4]].
  destruct (H4 h) as (l & Hc & Hd). exists l. split; [exact Hc|].
  by eapply descending_sorted.
Qed.

Lemma chain_order_invariant_witness :
  exists l,
    chain (next_tab (fst (scanned buf_aaaa 4)))
      (arr_get (hash4_tab (fst (scanned buf_aaaa 4)))
         (snd (snd (scanned buf_aaaa 4)))) l
    /\ StronglySorted Z.gt l.
Proof.
  apply (chain_order_invariant lz_hash_mul true buf_aaaa 4).
  apply (scanned_reachable true buf_aaaa 4);
    [lia|vm_compute; discriminate|reflexivity].
Defined.

(** C2.  In a state reached by calls at strictly increasing positions, the
    chains contain only positions below the position [p] searched next,
    and a match reported by the search at [p] starts at a position
    [m = p - offset] with [m < p]. *)
Theorem search_causality (lz_hash : Z -> Z -> Z) (fast : bool)
    (buf : list byte) (n : Z) (st : mf_state)
    (p best_len max_len nice_len max_search_depth : Z) :
  reachable lz_hash fast buf n st ->
  n <= p < 2 ^ 32 ->
  (forall h, exists l,
      chain (next_tab (fst st)) (arr_get (hash4_tab (fst st)) h) l
      /\ Forall (fun v => v < p) l)
  /\ exists r,
      hc_matchfinder_longest_match lz_hash fast (fst st) buf p best_len
        max_len nice_len max_search_depth (snd st) = Some r
      /\ (best_len < sr_len r -> p - sr_offset r < p).
Proof.
  intros Hr Hp. apply reachable_inv in Hr as [Hn Hinv]. split.
  - intros h. destruct Hinv as [_ H4]. destruct (H4 h) as (l & Hc & Hd).
    exists l. split; [exact Hc|]. apply descending_Forall in Hd.
    eapply Forall_impl; [exact Hd|]. simpl. intros; lia.
  - destruct (longest_match_spec lz_hash fast buf n p best_len max_len
                nice_len max_search_depth st Hinv ltac:(lia) ltac:(lia))
      as (r & Hs & Hpost & _).
    exists r. split; [exact Hs|]. intros Hlt.
    destruct Hpost as [[Hl _]|(_ & Hm & _)]; lia.
Qed.

Lemma search_causality_witness :
  (forall h, exists l,
      chain (next_tab (fst (scanned buf_aaaa 4)))
        (arr_get (hash4_tab (fst (scanned buf_aaaa 4))) h) l
      /\ Forall (fun v => v < 4) l)
  /\ exists r,
      hc_matchfinder_longest_match lz_hash_mul true
        (fst (scanned buf_aaaa 4)) buf_aaaa 4 0 6 6 4
        (snd (scanned buf_aaaa 4)) = Some r
      /\ (0 < sr_len r -> 4 - sr_offset r < 4).
Proof.
  apply (search_causality lz_hash_mul true buf_aaaa 4); [|lia].
  apply (scanned_reachable true buf_aaaa 4); [lia|vm_compute; discriminate|reflexivity].
Defined.

(** C8.  A search never reports a match at position 0: in a state reached
    by calls at strictly increasing positions, a reported match starts at
    [m = p - offset > 0]; and when the two bucket heads read by the search
    are 0 (empty, or holding position 0) nothing is compared and the search
    returns what it was given. *)
Theorem position_zero_never_matched (lz_hash : Z -> Z -> Z) (fast : bool)
    (buf : list byte) (n : Z) (st : mf_state)
    (p best_len max_len nice_len max_search_depth : Z) :
  reachable lz_hash fast buf n st ->
  n <= p < 2 ^ 32 ->
  exists r,
    hc_matchfinder_longest_match lz_hash fast (fst st) buf p best_len
      max_len nice_len max_search_depth (snd st) = Some r
    /\ (best_len < sr_len r -> p - sr_offset r <> 0)
    /\ (arr_get (hash3_tab (fst st)) (fst (snd st)) = 0 ->
        arr_get (hash4_tab (fst st)) (snd (snd st)) = 0 ->
        sr_len r = best_len /\ sr_offset r = 0).
Proof.
  intros Hr Hp. apply reachable_inv in Hr as [Hn Hinv].
  destruct (longest_match_spec lz_hash fast buf n p best_len max_len
              nice_len max_search_depth st Hinv ltac:(lia) ltac:(lia))
    as (r & Hs & Hpost & _).
  exists r. split; [exact Hs|]. split.
  - intros Hlt. destruct Hpost as [[Hl _]|(_ & Hm & _)]; lia.
  - intros H3 H4. unfold hc_matchfinder_longest_match in Hs.
    destruct (max_len <? 5).
    { injection Hs as <-. cbn [sr_len sr_offset]. by rewrite Z.sub_diag. }
    rewrite H3, H4 in Hs. unfold search_chains in Hs.
    rewrite Z.eqb_refl in Hs. cbn [orb] in Hs.
    destruct (best_len <? 4); injection Hs as <-;
      cbn [sr_len sr_offset]; by rewrite Z.sub_diag.
Qed.

Lemma position_zero_never_matched_witness :
  exists r,
    hc_matchfinder_longest_match lz_hash_mul true
      (fst (scanned buf_abcx 4)) buf_abcx 4 0 5 5 4
      (snd (scanned buf_abcx 4)) = Some r
    /\ (0 < sr_len r -> 4 - sr_offset r <> 0)
    /\ (arr_get (hash3_tab (fst (scanned buf_abcx 4)))
          (fst (snd (scanned buf_abcx 4))) = 0 ->
        arr_get (hash4_tab (fst (scanned buf_abcx 4)))
          (snd (snd (scanned buf_abcx 4))) = 0 ->
        sr_len r = 0 /\ sr_offset r = 0).
Proof.
  apply (position_zero_never_matched lz_hash_mul true buf_abcx 4); [|lia].
  apply (scanned_reachable true buf_abcx 4); [lia|vm_compute; discriminate|reflexivity].
Defined.

(** ** Length bound and soundness of the match *)

(** C1 (as amended).  For a search with [nice_len <= max_len],
    [max_depth >= 1] and [best_len <= max_len], in a state reached by calls
    at strictly increasing positions, the returned length [L] satisfies
    [L <= max_len]; and whenever [L > best_len], the [L] bytes at [p] equal
    the [L] bytes at [m = p - offset]. *)
Theorem longest_match_bounded_match (lz_hash : Z -> Z -> Z) (fast : bool)
    (buf : list byte) (n : Z) (st : mf_state)
    (p best_len max_len nice_len max_search_depth : Z) :
  reachable lz_hash fast buf n st ->
  n <= p < 2 ^ 32 ->
  nice_len <= max_len ->
  1 <= max_search_depth ->
  best_len <= max_len ->
  exists r,
    hc_matchfinder_longest_match lz_hash fast (fst st) buf p best_len
      max_len nice_len max_search_depth (snd st) = Some r
    /\ sr_len r <= max_len
    /\ (best_len < sr_len r ->
        match_at buf p (p - sr_offset r) (sr_len r)).
Proof.
  intros Hr Hp _ _ Hbl. apply reachable_inv in Hr as [Hn Hinv].
  destruct (longest_match_spec lz_hash fast buf n p best_len max_len
              nice_len max_search_depth st Hinv ltac:(lia) ltac:(lia))
    as (r & Hs & Hpost & _).
  exists r. split; [exact Hs|].
  destruct Hpost as [[Hl _]|(Hl & _ & Hm)]; (split; [lia|]);
    intros Hlt; [lia|exact Hm].
Qed.

Lemma longest_match_bounded_match_witness :
  exists r,
    hc_matchfinder_longest_match lz_hash_mul true
      (fst (scanned buf_aaaa 4)) buf_aaaa 4 0 6 6 4
      (snd (scanned buf_aaaa 4)) = Some r
    /\ sr_len r <= 6
    /\ (0 < sr_len r -> match_at buf_aaaa 4 (4 - sr_offset r) (sr_len r)).
Proof.
  apply (longest_match_bounded_match lz_hash_mul true buf_aaaa 4);
    [|lia|lia|lia|lia].
  apply (scanned_reachable true buf_aaaa 4);
    [lia|vm_compute; discriminate|reflexivity].
Defined.

(** C1 (counterexample).  On "AAAAAAAAAAAA", after the scan has inserted
    positions 0 to 6, the search at 7 finds the 5 bytes that remain at
    offset 1; the search at 8 that asks for more than these 5, with
    [max_len = nice_len = 4] and depth 4, returns length 5, above its
    [max_len]. *)
Lemma longest_match_length_above_max_len :
  option_map snd
    (run_calls lz_hash_mul true buf_aaaa (scanned buf_aaaa 7)
       [Search 7 0 5 5 4; Search 8 5 4 4 4])
  = Some [(5, 1); (5, 0)]
  /\ 4 <= 4 /\ 1 <= 4 /\ ~ 5 <= 4.
Proof. split; [vm_compute; reflexivity|lia]. Qed.

(** ** Scenario 3 of the specification *)

(** C7 (as amended).  On "ABCXABCYZ", however positions 0 to 3 were
    presented to a reset matchfinder, whatever the hash function, the
    search at [p = 4] with [best_len = 0], [max_len = 5], [nice_len = 5],
    [max_depth = 4] returns length 0 and offset 0: the occurrence of "ABC"
    at position 0 is stored as the value 0, which reads as an empty
    bucket. *)
Theorem scenario3_no_match (lz_hash : Z -> Z -> Z) (fast : bool)
    (st : mf_state) :
  reachable lz_hash fast buf_abcx 4 st ->
  exists r,
    hc_matchfinder_longest_match lz_hash fast (fst st) buf_abcx 4 0 5 5 4
      (snd st) = Some r
    /\ sr_len r = 0 /\ sr_offset r = 0.
Proof.
  intros Hr. apply reachable_inv in Hr as [_ Hinv].
  destruct (longest_match_spec lz_hash fast buf_abcx 4 4 0 5 5 4 st Hinv
              ltac:(lia) ltac:(lia)) as (r & Hs & Hpost & _).
  exists r. split; [exact Hs|].
  destruct Hpost as [Hsame|(Hl & Hm & Hmatch)]; [exact Hsame|exfalso].
  specialize (Hmatch 0 ltac:(lia)). rewrite !Z.add_0_r in Hmatch.
  assert (Hcases : 4 - sr_offset r = 1 \/ 4 - sr_offset r = 2
                   \/ 4 - sr_offset r = 3) by lia.
  destruct Hcases as [E|[E|E]]; rewrite E in Hmatch;
    vm_compute in Hmatch; discriminate.
Qed.

Lemma scenario3_no_match_witness :
  exists r,
    hc_matchfinder_longest_match lz_hash_mul true
      (fst (scanned buf_abcx 4)) buf_abcx 4 0 5 5 4
      (snd (scanned buf_abcx 4)) = Some r
    /\ sr_len r = 0 /\ sr_offset r = 0.
Proof.
  apply (scenario3_no_match lz_hash_mul true).
  apply (scanned_reachable true buf_abcx 4);
    [lia|vm_compute; discriminate|reflexivity].
Defined.

(** C7 (counterexample).  With the multiplicative hash, positions 0 to 3
    inserted by a skip or by four searches, with or without the word-wise
    filter, the first hashes computed by the caller or left at zero: the
    search at 4 returns (0, 0), not (3, 4). *)
Lemma scenario3_counterexample :
  option_map snd
    (run_calls lz_hash_mul true buf_abcx (scan_start buf_abcx)
       [Skip 0 9 4; Search 4 0 5 5 4]) = Some [(0, 0)]
  /\ option_map snd
       (run_calls lz_hash_mul false buf_abcx (scan_start buf_abcx)
          [Skip 0 9 4; Search 4 0 5 5 4]) = Some [(0, 0)]
  /\ option_map snd
       (run_calls lz_hash_mul true buf_abcx (scan_start buf_abcx)
          [Search 0 0 9 9 4; Search 1 0 8 8 4; Search 2 0 7 7 4;
           Search 3 0 6 6 4; Search 4 0 5 5 4])
     = Some [(0, 0); (0, 0); (0, 0); (0, 0); (0, 0)]
  /\ option_map snd
       (run_calls lz_hash_mul true buf_abcx (fresh 9, (0, 0))
          [Skip 0 9 4; Search 4 0 5 5 4]) = Some [(0, 0)]
  /\ option_map snd
       (run_calls lz_hash_mul true buf_abcx (scan_start buf_abcx)
          [Skip 0 9 4; Search 4 0 5 5 4]) <> Some [(3, 4)].
Proof.
  repeat split; try (vm_compute; reflexivity). vm_compute. discriminate.
Qed.

(** ** Skip and single insertions *)

Section Histories.
Variable lz_hash : Z -> Z -> Z.
Variable UNALIGNED_ACCESS_IS_FAST : bool.
Variable buf : list byte.

Lemma run_calls_total (lo end_pos : Z) (cs : list call) :
  Forall (in_contract lo end_pos) cs ->
  forall st,
    is_Some (run_calls lz_hash UNALIGNED_ACCESS_IS_FAST buf st cs).
Proof.
  induction 1 as [|c cs Hc _ IH]; intros st; [by eexists|].
  cbn [run_calls].
  assert (Hcall : is_Some (run_call lz_hash UNALIGNED_ACCESS_IS_FAST buf st c)).
  { destruct c as [q bl ml nl d|q e cnt]; cbn [run_call].
    - destruct (longest_match_terminates UNALIGNED_ACCESS_IS_FAST lz_hash
                  (fst st) buf q bl ml nl d (snd st)) as [r ->]. by eexists.
    - destruct Hc as (_ & _ & Hcnt & _).
      destruct (skip_positions_spec lz_hash buf st q e cnt Hcnt)
        as (r & -> & _). by eexists. }
  destruct Hcall as [[st' out] ->].
  destruct (IH st') as [[st'' outs] ->]. by eexists.
Qed.

(** Past the point where fewer than 5 bytes remain, a caller within the
    contract cannot change the index any more, and every search returns
    what it was given. *)
Lemma run_calls_past_end (lo end_pos : Z) (cs : list call) :
  end_pos - lo < 5 ->
  Forall (in_contract lo end_pos) cs ->
  forall st,
    run_calls lz_hash UNALIGNED_ACCESS_IS_FAST buf st cs
    = Some (st, quiet_outputs cs).
Proof.
  intros Hend. induction 1 as [|c cs Hc _ IH]; intros st; [reflexivity|].
  cbn [run_calls].
  assert (Hcall : run_call lz_hash UNALIGNED_ACCESS_IS_FAST buf st c
                  = Some (st, quiet_outputs [c])).
  { destruct st as [mf nh].
    destruct c as [q bl ml nl d|q e cnt]; cbn [run_call fst snd].
    - destruct Hc as [Hq Hml]. unfold hc_matchfinder_longest_match.
      replace (ml <? 5) with true by (symmetry; apply Z.ltb_lt; lia).
      cbn [sr_mf sr_next_hashes sr_len sr_offset]. rewrite Z.sub_diag.
      reflexivity.
    - destruct Hc as (Hq & -> & Hcnt & Hin).
      unfold hc_matchfinder_skip_positions,
        hc_matchfinder_skip_positions_fuel.
      rewrite u32_small by lia.
      replace (cnt + 5 <=? end_pos - q) with false
        by (symmetry; apply Z.leb_gt; lia).
      reflexivity. }
  rewrite Hcall, IH. unfold quiet_outputs. cbn [flat_map].
  by rewrite app_nil_r.
Qed.

(** When its lookahead test fails, a skip was called so close to the end
    of the buffer that fewer than 5 bytes remain after the range. *)
Lemma skip_test_fails_near_end (p end_pos count : Z) :
  0 < count < 2 ^ 32 ->
  (u32 (count + 5) <=? end_pos - p) = false ->
  end_pos - (p + count) < 5.
Proof.
  intros Hc Htest. apply Z.leb_gt in Htest. unfold u32 in Htest.
  destruct (Z.lt_ge_cases (count + 5) (2 ^ 32)) as [Hlt|Hge].
  - rewrite Z.mod_small in Htest by lia. lia.
  - replace (count + 5) with (count + 5 - 2 ^ 32 + 1 * 2 ^ 32) in Htest by lia.
    rewrite Z.mod_add in Htest by lia.
    rewrite Z.mod_small in Htest by lia. lia.
Qed.

End Histories.

(** C5.  For every buffer, start position [p] and [count > 0], the state
    left by [hc_matchfinder_skip_positions] and the state left by [count]
    single-position insertions at the same positions cannot be told apart:
    every sequence of later calls within the contract (searches past the
    range with [max_len] clamped to the bytes that remain, skips inside
    the buffer) runs to completion from both and returns the same
    (length, offset) results. *)
Theorem skip_equivalent_to_insertions (lz_hash : Z -> Z -> Z) (fast : bool)
    (buf : list byte) (st : mf_state) (p end_pos count : Z) :
  0 < count < 2 ^ 32 ->
  exists r,
    hc_matchfinder_skip_positions lz_hash (fst st) buf p end_pos count
      (snd st) = Some r
    /\ forall cs,
        Forall (in_contract (p + count) end_pos) cs ->
        exists st1 st2 outs,
          run_calls lz_hash fast buf (sk_mf r, sk_next_hashes r) cs
          = Some (st1, outs)
          /\ run_calls lz_hash fast buf
               (insert_positions lz_hash buf st p (Z.to_nat count)) cs
             = Some (st2, outs).
Proof.
  intros Hc.
  destruct (skip_positions_spec lz_hash buf st p end_pos count ltac:(lia))
    as (r & Hr & _ & Hst).
  exists r. split; [exact Hr|]. intros cs Hcs. rewrite Hst.
  unfold after_skip. destruct (u32 (count + 5) <=? end_pos - p) eqn:Htest.
  - destruct (run_calls_total lz_hash fast buf _ _ cs Hcs
                (insert_positions lz_hash buf st p (Z.to_nat count)))
      as [[st' outs] Hrun].
    exists st', st', outs. by split.
  - pose proof (skip_test_fails_near_end p end_pos count Hc Htest) as Hend.
    rewrite !(run_calls_past_end lz_hash fast buf _ _ cs Hend Hcs).
    by eexists _, _, _.
Qed.

Lemma skip_equivalent_to_insertions_witness :
  exists r,
    hc_matchfinder_skip_positions lz_hash_mul (fst (scan_start buf_aaaa))
      buf_aaaa 0 12 4 (snd (scan_start buf_aaaa)) = Some r
    /\ forall cs,
        Forall (in_contract (0 + 4) 12) cs ->
        exists st1 st2 outs,
          run_calls lz_hash_mul true buf_aaaa
            (sk_mf r, sk_next_hashes r) cs = Some (st1, outs)
          /\ run_calls lz_hash_mul true buf_aaaa
               (insert_positions lz_hash_mul buf_aaaa (scan_start buf_aaaa)
                  0 (Z.to_nat 4)) cs
             = Some (st2, outs).
Proof.
  apply (skip_equivalent_to_insertions lz_hash_mul true buf_aaaa
           (scan_start buf_aaaa) 0 12 4).
  lia.
Defined.

(** On "AAAAAAAAAAAA", a search at 4 after the skip of positions 0 to 3,
    and after four single insertions: both return (8, 1). *)
Example skip_then_search :
  option_map snd
    (run_calls lz_hash_mul true buf_aaaa (scan_start buf_aaaa)
       [Skip 0 12 4; Search 4 0 8 8 4]) = Some [(8, 1)]
  /\ option_map snd
       (run_calls lz_hash_mul true buf_aaaa
          (insert_positions lz_hash_mul buf_aaaa (scan_start buf_aaaa) 0 4)
          [Search 4 0 8 8 4]) = Some [(8, 1)].
Proof. split; vm_compute; reflexivity. Qed.

(** C6 (as amended).  A skip of [count > 0] positions is all or nothing.
    Its one test compares the 32-bit sum [count + 5], which wraps modulo
    2^32 ([u32 (count + 5)]; it is [count + 5] itself whenever
    [count < 2^32 - 5]), with [end_pos - cur_pos].  When the sum is at
    most [end_pos - cur_pos], every position of the range is inserted, as
    by [count] single insertions; otherwise no position of the range is
    inserted, not even those with 5 bytes of lookahead or more, and the
    index and the precomputed hashes are left as they were. *)
Theorem skip_all_or_nothing (lz_hash : Z -> Z -> Z) (buf : list byte)
    (st : mf_state) (cur_pos end_pos count : Z) :
  0 < count ->
  exists r,
    hc_matchfinder_skip_positions lz_hash (fst st) buf cur_pos end_pos
      count (snd st) = Some r
    /\ sk_stop r = cur_pos + count
    /\ (sk_mf r, sk_next_hashes r)
       = if u32 (count + 5) <=? end_pos - cur_pos
         then insert_positions lz_hash buf st cur_pos (Z.to_nat count)
         else st.
Proof.
  intros Hc.
  destruct (skip_positions_spec lz_hash buf st cur_pos end_pos count Hc)
    as (r & Hr & Hstop & Hst).
  exists r. split; [exact Hr|]. split; [exact Hstop|].
  rewrite Hst. unfold after_skip.
  destruct (u32 (count + 5) <=? end_pos - cur_pos); reflexivity.
Qed.

Lemma skip_all_or_nothing_witness :
  exists r,
    hc_matchfinder_skip_positions lz_hash_mul (fst (scanned buf_alpha 1))
      buf_alpha 1 13 10 (snd (scanned buf_alpha 1)) = Some r
    /\ sk_stop r = 1 + 10
    /\ (sk_mf r, sk_next_hashes r)
       = if u32 (10 + 5) <=? 13 - 1
         then insert_positions lz_hash_mul buf_alpha (scanned buf_alpha 1)
                1 (Z.to_nat 10)
         else scanned buf_alpha 1.
Proof.
  apply (skip_all_or_nothing lz_hash_mul buf_alpha (scanned buf_alpha 1)
           1 13 10); lia.
Defined.

(** C6 (counterexample).  On the 13 bytes "ABCDEFGHIJKLM", with position 0
    inserted, the skip of the 10 positions 1 to 10 (of which 9 and 10 have
    fewer than 5 bytes of lookahead) inserts none: position 1, with 12
    bytes of lookahead, is not in its bucket, where a skip of position 1
    alone puts it. *)
Lemma skip_tail_drops_whole_range :
  option_map (fun r => (sk_mf r, sk_next_hashes r))
    (hc_matchfinder_skip_positions lz_hash_mul (fst (scanned buf_alpha 1))
       buf_alpha 1 13 10 (snd (scanned buf_alpha 1)))
  = Some (fst (scanned buf_alpha 1), snd (scanned buf_alpha 1))
  /\ 5 <= 13 - 1
  /\ arr_get (hash3_tab (fst (scanned buf_alpha 1)))
       (fst (snd (scanned buf_alpha 1))) = 0
  /\ option_map (fun r => arr_get (hash3_tab (sk_mf r))
                            (fst (snd (scanned buf_alpha 1))))
       (hc_matchfinder_skip_positions lz_hash_mul (fst (scanned buf_alpha 1))
          buf_alpha 1 13 1 (snd (scanned buf_alpha 1)))
     = Some 1.
Proof.
  split; [reflexivity|]. split; [lia|]. split; vm_compute; reflexivity.
Qed.

(** ** Calls outside the contract *)

Lemma find_longer_depth_congr (fast : bool) (fuel : nat)
    (mf : hc_matchfinder) (buf : list byte)
    (p max_len nice_len v d1 d2 bl bm : Z) :
  u32 (d1 - 1) = u32 (d2 - 1) ->
  find_longer fast fuel mf buf p max_len nice_len v d1 bl bm
  = find_longer fast fuel mf buf p max_len nice_len v d2 bl bm.
Proof.
  intros H. destruct fuel as [|fuel]; [reflexivity|].
  cbn [find_longer]. rewrite H. reflexivity.
Qed.

(** The walks look at [depth_remaining] only after decrementing it, so two
    depths with the same predecessor modulo 2^32 give the same search. *)
Lemma search_chains_depth_congr (fast : bool) (mf : hc_matchfinder)
    (buf : list byte) (p bl max_len nice_len d1 d2 c3 c4 : Z) :
  u32 (d1 - 1) = u32 (d2 - 1) ->
  search_chains fast mf buf p bl max_len nice_len d1 c3 c4
  = search_chains fast mf buf p bl max_len nice_len d2 c3 c4.
Proof.
  intros H. unfold search_chains, depth_fuel. rewrite H.
  destruct (bl <? 4).
  - destruct (c3 =? 0); [reflexivity|].
    destruct (if (bl <? 3) && _ then _ else _) as [bl' bm'].
    destruct (c4 =? 0); [reflexivity|].
    cbn [find_len4].
    destruct (load_u32_unaligned buf c4 =? load_u32_unaligned buf p).
    + rewrite H. reflexivity.
    + rewrite H. reflexivity.
  - destruct (_ || _); [reflexivity|].
    by apply find_longer_depth_congr.
Qed.

(** C10 (as amended).  The three conditions are stated in the comments of
    the functions and checked nowhere.  A search returns a result for
    every [max_depth] and [nice_len]; with [max_depth = 0] the depth
    counter wraps and the search is the one of depth 2^32.  A skip with
    [count = 0] whose lookahead test passes never meets its exit test,
    whatever the fuel; when the test fails it returns at once without
    touching the index. *)
Theorem precondition_violations_unchecked (lz_hash : Z -> Z -> Z)
    (fast : bool) (mf : hc_matchfinder) (buf : list byte)
    (cur_pos best_len max_len nice_len max_search_depth end_pos : Z)
    (next_hashes : Z * Z) (fuel : nat) :
  is_Some (hc_matchfinder_longest_match lz_hash fast mf buf cur_pos
             best_len max_len nice_len max_search_depth next_hashes)
  /\ hc_matchfinder_longest_match lz_hash fast mf buf cur_pos best_len
       max_len nice_len 0 next_hashes
     = hc_matchfinder_longest_match lz_hash fast mf buf cur_pos best_len
         max_len nice_len (2 ^ 32) next_hashes
  /\ hc_matchfinder_skip_positions_fuel lz_hash fuel mf buf cur_pos
       end_pos 0 next_hashes
     = if 5 <=? end_pos - cur_pos then None
       else Some (mk_skip_result (cur_pos + 0) mf next_hashes).
Proof.
  split; [apply longest_match_terminates|]. split.
  - unfold hc_matchfinder_longest_match.
    destruct (max_len <? 5); [reflexivity|].
    rewrite (search_chains_depth_congr fast _ buf cur_pos best_len max_len
               nice_len 0 (2 ^ 32)) by reflexivity.
    reflexivity.
  - unfold hc_matchfinder_skip_positions_fuel.
    change (u32 (0 + 5)) with 5.
    destruct (5 <=? end_pos - cur_pos); [|reflexivity].
    rewrite skip_loop_diverges by lia. reflexivity.
Qed.

(** C10 (counterexample).  On [buf_deep] with positions 0 to 14 inserted,
    the search at 15 with [max_depth = 0] does not stop: it walks past the
    first candidate, where depth 1 stops with (4, 6), and returns (7, 14)
    as depth 2 does.  On "AAAAAAAAAAAA" with positions 0 to 3 inserted, the
    search at 4 with [nice_len = 100 > max_len = 6] returns the match
    (6, 1), and the skip with [count = 0] returns for no fuel. *)
Lemma violations_do_not_fail_fast :
  option_map (fun r => (sr_len r, sr_offset r))
    (hc_matchfinder_longest_match lz_hash_mul true
       (fst (scanned buf_deep 15)) buf_deep 15 0 7 7 0
       (snd (scanned buf_deep 15))) = Some (7, 14)
  /\ option_map (fun r => (sr_len r, sr_offset r))
       (hc_matchfinder_longest_match lz_hash_mul true
          (fst (scanned buf_deep 15)) buf_deep 15 0 7 7 1
          (snd (scanned buf_deep 15))) = Some (4, 6)
  /\ option_map (fun r => (sr_len r, sr_offset r))
       (hc_matchfinder_longest_match lz_hash_mul true
          (fst (scanned buf_deep 15)) buf_deep 15 0 7 7 2
          (snd (scanned buf_deep 15))) = Some (7, 14)
  /\ option_map (fun r => (sr_len r, sr_offset r))
       (hc_matchfinder_longest_match lz_hash_mul true
          (fst (scanned buf_aaaa 4)) buf_aaaa 4 0 6 100 4
          (snd (scanned buf_aaaa 4))) = Some (6, 1)
  /\ forall fuel,
       hc_matchfinder_skip_positions_fuel lz_hash_mul fuel
         (fst (scanned buf_aaaa 4)) buf_aaaa 4 12 0
         (snd (scanned buf_aaaa 4)) = None.
Proof.
  split; [lazy; reflexivity|]. split; [vm_compute; reflexivity|].
  split; [vm_compute; reflexivity|]. split; [vm_compute; reflexivity|].
  intros fuel. unfold hc_matchfinder_skip_positions_fuel.
  change (u32 (0 + 5) <=? 12 - 4) with true. cbv iota.
  rewrite skip_loop_diverges by lia. reflexivity.
Qed.

(** ** The other scenarios of the specification *)

(** Scenario 1: on "AAAAAAAAAA" with positions 0 to 3 inserted, the search
    at 4 with [max_len = nice_len = 6] returns (6, 1). *)
Example scenario1 :
  option_map snd
    (run_calls lz_hash_mul true (buf_of "AAAAAAAAAA")
       (scan_start (buf_of "AAAAAAAAAA")) [Skip 0 10 4; Search 4 0 6 6 4])
  = Some [(6, 1)].
Proof. vm_compute. reflexivity. Qed.

(** Scenario 2: on "ABCDEFGH" the search at 0 returns (0, 0). *)
Example scenario2 :
  option_map snd
    (run_calls lz_hash_mul true (buf_of "ABCDEFGH")
       (scan_start (buf_of "ABCDEFGH")) [Search 0 0 8 5 4])
  = Some [(0, 0)].
Proof. vm_compute. reflexivity. Qed.

(** Scenario 4: on "ABCDEFGHIJ", skipping 3 positions from 0 and searching
    at 3 returns (0, 0). *)
Example scenario4 :
  option_map snd
    (run_calls lz_hash_mul true (buf_of "ABCDEFGHIJ")
       (scan_start (buf_of "ABCDEFGHIJ")) [Skip 0 10 3; Search 3 0 5 5 4])
  = Some [(0, 0)].
Proof. vm_compute. reflexivity. Qed.

(** * Further properties of the matchfinder *)

(** ** More on match extension *)

Lemma lz_extend_loop_stops (buf : list byte) (s m max_len : Z) (fuel : nat) :
  forall len,
    (Z.to_nat (max_len - len) <= fuel)%nat ->
    lz_extend_loop fuel buf s m len max_len < max_len ->
    byte_at buf (s + lz_extend_loop fuel buf s m len max_len)
    <> byte_at buf (m + lz_extend_loop fuel buf s m len max_len).
Proof.
  induction fuel as [|fuel IH]; intros len Hf; simpl.
  - lia.
  - destruct (len <? max_len) eqn:Hlt; simpl; [|lia].
    destruct (byte_at buf (s + len) =? byte_at buf (m + len)) eqn:Hb.
    + apply IH. lia.
    + intros _. lia.
Qed.

(** The extension stops on [max_len] or on the first pair of bytes that
    differ. *)
Lemma lz_extend_stops (buf : list byte) (p m start max_len : Z) :
  lz_extend buf p m start max_len < max_len ->
  byte_at buf (p + lz_extend buf p m start max_len)
  <> byte_at buf (m + lz_extend buf p m start max_len).
Proof. unfold lz_extend. apply lz_extend_loop_stops. lia. Qed.

Lemma lz_extend_lower (buf : list byte) (p m start max_len : Z) :
  start <= lz_extend buf p m start max_len.
Proof.
  unfold lz_extend.
  destruct (lz_extend_loop_spec buf p m max_len (Z.to_nat (max_len - start))
              start) as (H & _). exact H.
Qed.

(** No match at [m] within [max_len] is longer than what the extension
    returns. *)
Lemma lz_extend_ge (buf : list byte) (p m start max_len k : Z) :
  0 <= start -> k <= max_len -> match_at buf p m k ->
  k <= lz_extend buf p m start max_len.
Proof.
  intros Hs Hk Hm.
  pose proof (lz_extend_lower buf p m start max_len) as Hlow.
  destruct (Z.le_gt_cases k (lz_extend buf p m start max_len)) as [|Hgt];
    [assumption|exfalso].
  apply (lz_extend_stops buf p m start max_len); [lia|].
  apply Hm. lia.
Qed.

(** Extending from a prefix already known to match gives the run length
    counted from the start. *)
Lemma lz_extend_from_prefix (buf : list byte) (p m start max_len : Z) :
  0 <= start <= max_len -> match_at buf p m start ->
  lz_extend buf p m start max_len = lz_extend buf p m 0 max_len.
Proof.
  intros Hs Hm.
  destruct (lz_extend_match buf p m start max_len) as [Hr1 Hm1]; [lia|exact Hm|].
  destruct (lz_extend_match buf p m 0 max_len) as [Hr0 Hm0];
    [lia|intros i Hi; lia|].
  assert (H1 : lz_extend buf p m start max_len <= lz_extend buf p m 0 max_len)
    by (apply lz_extend_ge; [lia|lia|exact Hm1]).
  assert (H0 : lz_extend buf p m 0 max_len <= lz_extend buf p m start max_len)
    by (apply lz_extend_ge; [lia|lia|exact Hm0]).
  lia.
Qed.

Lemma match_at_shorter (buf : list byte) (p m k k' : Z) :
  k' <= k -> match_at buf p m k -> match_at buf p m k'.
Proof. intros Hk Hm i Hi. apply Hm. lia. Qed.

(** Four equal bytes load as equal words. *)
Lemma match_at_load_u32 (buf : list byte) (p m k j : Z) :
  match_at buf p m k -> 0 <= j -> j + 4 <= k ->
  load_u32_unaligned buf (m + j) = load_u32_unaligned buf (p + j).
Proof.
  intros Hm Hj Hk. rewrite !load_u32_unaligned_sum.
  rewrite <- !Z.add_assoc.
  rewrite (Hm j), (Hm (j + 1)), (Hm (j + 2)), (Hm (j + 3)) by lia.
  reflexivity.
Qed.

(** A candidate with a match longer than [best_len] passes the filter of
    the second loop, in both variants. *)
Lemma longer_candidate_complete (fast : bool) (buf : list byte)
    (p v bl k : Z) :
  3 <= bl -> bl < k -> match_at buf p v k ->
  longer_candidate fast buf p v bl = true.
Proof.
  intros Hbl Hk Hm. unfold longer_candidate. destruct fast.
  - apply andb_true_iff. split; apply Z.eqb_eq.
    + replace (v + bl - 3) with (v + (bl - 3)) by lia.
      replace (p + bl - 3) with (p + (bl - 3)) by lia.
      apply (match_at_load_u32 buf p v k); [exact Hm|lia|lia].
    + rewrite <- (Z.add_0_r v), <- (Z.add_0_r p).
      apply (match_at_load_u32 buf p v k); [exact Hm|lia|lia].
  - apply Z.eqb_eq. symmetry. apply Hm. lia.
Qed.

(** ** The length never shrinks, in any state *)

Lemma find_longer_grows (fast : bool) (mf : hc_matchfinder) (buf : list byte)
    (p max_len nice_len : Z) (fuel : nat) :
  forall v d bl bm r,
    find_longer fast fuel mf buf p max_len nice_len v d bl bm = Some r ->
    (fst r = bl /\ snd r = bm) \/ bl < fst r.
Proof.
  induction fuel as [|fuel IH]; intros v d bl bm r; simpl; [discriminate|].
  destruct (longer_candidate _ _ _ _ _).
  - set (len := lz_extend buf p v _ max_len).
    destruct (len >? bl) eqn:Hgt.
    + assert (Hlt : bl < len) by lia.
      destruct (true && _); [intros [= <-]; right; exact Hlt|].
      destruct (arr_get (next_tab mf) v =? 0); [intros [= <-]; right; exact Hlt|].
      destruct (u32 (d - 1) =? 0); [intros [= <-]; right; exact Hlt|].
      intros Hrec. apply IH in Hrec. right. destruct Hrec as [[-> _]|?]; lia.
    + cbn [andb].
      destruct (arr_get (next_tab mf) v =? 0); [intros [= <-]; by left|].
      destruct (u32 (d - 1) =? 0); [intros [= <-]; by left|].
      apply IH.
  - destruct (arr_get (next_tab mf) v =? 0); [intros [= <-]; by left|].
    destruct (u32 (d - 1) =? 0); [intros [= <-]; by left|].
    apply IH.
Qed.

Lemma search_chains_grows (fast : bool) (mf : hc_matchfinder)
    (buf : list byte) (p bl0 max_len nice_len depth c3 c4 : Z) (r : Z * Z) :
  search_chains fast mf buf p bl0 max_len nice_len depth c3 c4 = Some r ->
  (fst r = bl0 /\ snd r = p) \/ bl0 < fst r.
Proof.
  unfold search_chains. destruct (bl0 <? 4) eqn:Hbl.
  - destruct (c3 =? 0); [intros [= <-]; by left|].
    set (b3 := if (bl0 <? 3) && _ then (3, c3) else (bl0, p)).
    assert (Hb3 : (fst b3 = bl0 /\ snd b3 = p) \/ bl0 < fst b3).
    { subst b3. destruct (bl0 <? 3) eqn:H3; cbn [andb]; [|by left].
      destruct (_ =? _); [right; simpl; lia|by left]. }
    destruct b3 as [bl bm]. cbn [fst snd] in Hb3.
    destruct (c4 =? 0); [by intros [= <-]|].
    destruct (find_len4 _ mf buf _ c4 depth) as [[v d|]|];
      [|by intros [= <-]|discriminate].
    pose proof (lz_extend_lower buf p v 4 max_len) as Hext.
    destruct (_ >=? nice_len); [intros [= <-]; right; simpl; lia|].
    destruct (arr_get (next_tab mf) v =? 0); [intros [= <-]; right; simpl; lia|].
    destruct (u32 (d - 1) =? 0); [intros [= <-]; right; simpl; lia|].
    intros Hrec. apply find_longer_grows in Hrec. right.
    destruct Hrec as [[-> _]|?]; lia.
  - destruct (_ || _); [intros [= <-]; by left|]. apply find_longer_grows.
Qed.

(** X1.  A search never returns a length below the [best_len] it was
    given, in any state, reachable or not, and for any arguments. *)
Theorem search_never_shrinks (lz_hash : Z -> Z -> Z) (fast : bool)
    (mf : hc_matchfinder) (buf : list byte)
    (cur_pos best_len max_len nice_len max_search_depth : Z)
    (next_hashes : Z * Z) :
  exists r,
    hc_matchfinder_longest_match lz_hash fast mf buf cur_pos best_len
      max_len nice_len max_search_depth next_hashes = Some r
    /\ best_len <= sr_len r.
Proof.
  destruct (longest_match_terminates fast lz_hash mf buf cur_pos best_len
              max_len nice_len max_search_depth next_hashes) as [r Hr].
  exists r. split; [exact Hr|].
  unfold hc_matchfinder_longest_match in Hr.
  destruct (max_len <? 5); [injection Hr as <-; simpl; lia|].
  destruct (search_chains _ _ _ _ _ _ _ _ _ _) as [[bl bm]|] eqn:Hs;
    [|discriminate].
  injection Hr as <-. cbn [sr_len].
  apply search_chains_grows in Hs. cbn [fst snd] in Hs. lia.
Qed.

(** X2.  When a search returns the [best_len] it was given, the offset it
    writes is 0, in any state: [best_matchptr] moves only when the length
    grows. *)
Theorem search_unchanged_offset_zero (lz_hash : Z -> Z -> Z) (fast : bool)
    (mf : hc_matchfinder) (buf : list byte)
    (cur_pos best_len max_len nice_len max_search_depth : Z)
    (next_hashes : Z * Z) :
  exists r,
    hc_matchfinder_longest_match lz_hash fast mf buf cur_pos best_len
      max_len nice_len max_search_depth next_hashes = Some r
    /\ (if sr_len r =? best_len then sr_offset r = 0 else best_len < sr_len r).
Proof.
  destruct (longest_match_terminates fast lz_hash mf buf cur_pos best_len
              max_len nice_len max_search_depth next_hashes) as [r Hr].
  exists r. split; [exact Hr|].
  unfold hc_matchfinder_longest_match in Hr.
  destruct (max_len <? 5).
  { injection Hr as <-. cbn [sr_len sr_offset]. rewrite Z.eqb_refl.
    by rewrite Z.sub_diag. }
  destruct (search_chains _ _ _ _ _ _ _ _ _ _) as [[bl bm]|] eqn:Hs;
    [|discriminate].
  injection Hr as <-. cbn [sr_len sr_offset].
  apply search_chains_grows in Hs. cbn [fst snd] in Hs.
  destruct (bl =? best_len) eqn:E.
  - destruct Hs as [[_ ->]|?]; [by rewrite Z.sub_diag|lia].
  - destruct Hs as [[? _]|?]; lia.
Qed.

(** ** The two variants of the candidate filter *)

Lemma find_longer_variants (mf : hc_matchfinder) (buf : list byte)
    (p max_len nice_len : Z) (fuel : nat) :
  4 <= max_len ->
  forall v d bl bm,
    4 <= bl ->
    find_longer true fuel mf buf p max_len nice_len v d bl bm
    = find_longer false fuel mf buf p max_len nice_len v d bl bm.
Proof.
  intros Hmax. induction fuel as [|fuel IH]; intros v d bl bm Hbl;
    [reflexivity|].
  cbn [find_longer].
  destruct (longer_candidate true buf p v bl) eqn:Ht.
  - (* the word-wise filter passes: so does the byte filter, and the two
       extensions agree *)
    assert (Hfirst : match_at buf p v 4).
    { unfold longer_candidate in Ht. apply andb_true_iff in Ht as [_ H].
      apply Z.eqb_eq in H. by apply load_u32_unaligned_eq. }
    assert (Hlast : byte_at buf (v + bl) = byte_at buf (p + bl)).
    { unfold longer_candidate in Ht. apply andb_true_iff in Ht as [H _].
      apply Z.eqb_eq in H. apply load_u32_unaligned_eq in H.
      specialize (H 3 ltac:(lia)).
      replace (p + bl - 3 + 3) with (p + bl) in H by lia.
      replace (v + bl - 3 + 3) with (v + bl) in H by lia. congruence. }
    assert (Hf : longer_candidate false buf p v bl = true)
      by (unfold longer_candidate; by apply Z.eqb_eq).
    rewrite Hf.
    rewrite (lz_extend_from_prefix buf p v 4 max_len)
      by first [exact Hfirst | lia].
    set (len := lz_extend buf p v 0 max_len).
    destruct ((len >? bl) && _); [reflexivity|].
    destruct (arr_get (next_tab mf) v =? 0); [reflexivity|].
    destruct (u32 (d - 1) =? 0); [reflexivity|].
    apply IH. destruct (len >? bl) eqn:E; lia.
  - destruct (longer_candidate false buf p v bl) eqn:Hf.
    + (* only the byte filter passes: the extension from 0 cannot beat
         [best_len] *)
      assert (Hle : lz_extend buf p v 0 max_len <= bl).
      { destruct (Z.le_gt_cases (lz_extend buf p v 0 max_len) bl) as [|Hgt];
          [assumption|exfalso].
        destruct (lz_extend_match buf p v 0 max_len) as [_ Hm];
          [lia|intros i Hi; lia|].
        rewrite (longer_candidate_complete true buf p v bl _ ltac:(lia) Hgt Hm)
          in Ht. discriminate. }
      destruct (lz_extend buf p v 0 max_len >? bl) eqn:E; [lia|].
      cbn [andb].
      destruct (arr_get (next_tab mf) v =? 0); [reflexivity|].
      destruct (u32 (d - 1) =? 0); [reflexivity|].
      by apply IH.
    + destruct (arr_get (next_tab mf) v =? 0); [reflexivity|].
      destruct (u32 (d - 1) =? 0); [reflexivity|].
      by apply IH.
Qed.

(** X3.  The word-wise filter ([UNALIGNED_ACCESS_IS_FAST]) and the
    byte-wise filter give the same search: same length, same offset, same
    updated index and hashes, in any state and for any arguments. *)
Theorem filter_variants_agree (lz_hash : Z -> Z -> Z)
    (mf : hc_matchfinder) (buf : list byte)
    (cur_pos best_len max_len nice_len max_search_depth : Z)
    (next_hashes : Z * Z) :
  hc_matchfinder_longest_match lz_hash true mf buf cur_pos best_len
    max_len nice_len max_search_depth next_hashes
  = hc_matchfinder_longest_match lz_hash false mf buf cur_pos best_len
      max_len nice_len max_search_depth next_hashes.
Proof.
  unfold hc_matchfinder_longest_match.
  destruct (max_len <? 5) eqn:Hml; [reflexivity|].
  assert (Hmax : 4 <= max_len) by lia.
  match goal with
  | |- match search_chains true ?m ?b ?i ?bl ?ml ?nl ?d ?c3 ?c4 with _ => _ end
       = _ =>
      assert (Hs : search_chains true m b i bl ml nl d c3 c4
                   = search_chains false m b i bl ml nl d c3 c4)
  end; [|by rewrite Hs].
  unfold search_chains. destruct (best_len <? 4) eqn:Hbl.
  - destruct (_ =? 0); [reflexivity|].
    destruct (if (best_len <? 3) && _ then _ else _) as [bl bm].
    destruct (_ =? 0); [reflexivity|].
    destruct (find_len4 _ _ buf _ _ _) as [[v d|]|]; try reflexivity.
    destruct (_ >=? nice_len); [reflexivity|].
    destruct (arr_get _ v =? 0); [reflexivity|].
    destruct (u32 (d - 1) =? 0); [reflexivity|].
    apply find_longer_variants; [exact Hmax|].
    apply lz_extend_lower.
  - destruct (_ || _); [reflexivity|].
    apply find_longer_variants; [exact Hmax|lia].
Qed.

(** ** Runs of insertions *)

Section Insertions.
Variable lz_hash : Z -> Z -> Z.
Variable buf : list byte.

Lemma insert_positions_app (a b : nat) :
  forall st p,
    insert_positions lz_hash buf st p (a + b)
    = insert_positions lz_hash buf
        (insert_positions lz_hash buf st p a) (p + Z.of_nat a) b.
Proof.
  induction a as [|a IH]; intros st p.
  - simpl. by rewrite Z.add_0_r.
  - cbn [insert_positions Nat.add]. rewrite IH.
    replace (p + 1 + Z.of_nat a) with (p + Z.of_nat (S a)) by lia.
    reflexivity.
Qed.

Lemma insert_positions_hashes (count : nat) :
  forall st p,
    (0 < count)%nat ->
    snd (insert_positions lz_hash buf st p count)
    = hashes_at lz_hash buf (p + Z.of_nat count).
Proof.
  induction count as [|count IH]; intros st p Hc; [lia|].
  cbn [insert_positions]. destruct count as [|count].
  - reflexivity.
  - rewrite IH by lia. f_equal. lia.
Qed.

Lemma insert_positions_lengths (count : nat) :
  forall st p,
    length (hash3_tab (fst (insert_positions lz_hash buf st p count)))
    = length (hash3_tab (fst st))
    /\ length (hash4_tab (fst (insert_positions lz_hash buf st p count)))
       = length (hash4_tab (fst st))
    /\ length (next_tab (fst (insert_positions lz_hash buf st p count)))
       = length (next_tab (fst st)).
Proof.
  induction count as [|count IH]; intros st p; [done|].
  cbn [insert_positions].
  destruct (IH (insert_position lz_hash buf st p) (p + 1)) as (H3 & H4 & Hn).
  rewrite H3, H4, Hn. unfold insert_position. cbn [fst hash3_tab hash4_tab next_tab].
  by rewrite !arr_set_length.
Qed.

Lemma insert_positions_links (count : nat) :
  forall st p q,
    q < p \/ p + Z.of_nat count <= q ->
    arr_get (next_tab (fst (insert_positions lz_hash buf st p count))) q
    = arr_get (next_tab (fst st)) q.
Proof.
  induction count as [|count IH]; intros st p q Hq; [done|].
  cbn [insert_positions]. rewrite IH by lia.
  unfold insert_position. cbn [fst next_tab].
  apply arr_get_set_ne. lia.
Qed.

Lemma insert_positions_buckets (count : nat) :
  forall st p h,
    0 <= p -> p + Z.of_nat count <= 2 ^ 32 ->
    let st' := insert_positions lz_hash buf st p count in
    (arr_get (hash3_tab (fst st')) h = arr_get (hash3_tab (fst st)) h
     \/ p <= arr_get (hash3_tab (fst st')) h < p + Z.of_nat count)
    /\ (arr_get (hash4_tab (fst st')) h = arr_get (hash4_tab (fst st)) h
        \/ p <= arr_get (hash4_tab (fst st')) h < p + Z.of_nat count).
Proof.
  induction count as [|count IH]; intros st p h Hp Hend; [by split; left|].
  cbn [insert_positions]. cbn zeta.
  destruct (IH (insert_position lz_hash buf st p) (p + 1) h ltac:(lia)
              ltac:(lia)) as [H3 H4].
  cbn zeta in H3, H4. unfold insert_position in H3 at 2, H4 at 2.
  cbn [fst hash3_tab hash4_tab] in H3, H4.
  rewrite (u32_small p) in H3, H4 by lia.
  split.
  - destruct H3 as [H3|H3]; [|right; lia]. rewrite H3.
    destruct (decide (h = fst (snd st))) as [->|Hne].
    + destruct (decide (0 <= fst (snd st)
                        < Z.of_nat (length (hash3_tab (fst st))))) as [Hin|Hout].
      * right. rewrite arr_get_set_eq by exact Hin. lia.
      * left. rewrite !arr_get_outside; [reflexivity|exact Hout|].
        by rewrite arr_set_length.
    + left. by apply arr_get_set_ne.
  - destruct H4 as [H4|H4]; [|right; lia]. rewrite H4.
    destruct (decide (h = snd (snd st))) as [->|Hne].
    + destruct (decide (0 <= snd (snd st)
                        < Z.of_nat (length (hash4_tab (fst st))))) as [Hin|Hout].
      * right. rewrite arr_get_set_eq by exact Hin. lia.
      * left. rewrite !arr_get_outside; [reflexivity|exact Hout|].
        by rewrite arr_set_length.
    + left. by apply arr_get_set_ne.
Qed.

End Insertions.

(** X4.  A skip whose lookahead test passes leaves in [next_hashes] the
    hash codes of the windows at [cur_pos + count], ready for the call at
    that position. *)
Theorem skip_updates_next_hashes (lz_hash : Z -> Z -> Z) (buf : list byte)
    (st : mf_state) (cur_pos end_pos count : Z) :
  0 < count -> count + 5 < 2 ^ 32 ->
  count + 5 <= end_pos - cur_pos ->
  exists r,
    hc_matchfinder_skip_positions lz_hash (fst st) buf cur_pos end_pos
      count (snd st) = Some r
    /\ sk_next_hashes r = hashes_at lz_hash buf (cur_pos + count).
Proof.
  intros Hc Hu Htest.
  destruct (skip_positions_spec lz_hash buf st cur_pos end_pos count Hc)
    as (r & Hr & _ & Hst).
  exists r. split; [exact Hr|].
  unfold after_skip in Hst. rewrite u32_small in Hst by lia.
  replace (count + 5 <=? end_pos - cur_pos) with true in Hst
    by (symmetry; apply Z.leb_le; lia).
  apply (f_equal snd) in Hst. cbn [snd] in Hst. rewrite Hst.
  rewrite insert_positions_hashes by lia. f_equal. lia.
Qed.

(** X5.  Skipping [c1 + c2] positions in one call, when the lookahead test
    of that call passes, is the same as skipping [c1] positions and then
    [c2]: same index, same hashes, same position returned. *)
Theorem skip_composes (lz_hash : Z -> Z -> Z) (buf : list byte)
    (st : mf_state) (cur_pos end_pos c1 c2 : Z) :
  0 < c1 -> 0 < c2 -> c1 + c2 + 5 < 2 ^ 32 ->
  c1 + c2 + 5 <= end_pos - cur_pos ->
  exists r1 r,
    hc_matchfinder_skip_positions lz_hash (fst st) buf cur_pos end_pos c1
      (snd st) = Some r1
    /\ hc_matchfinder_skip_positions lz_hash (sk_mf r1) buf (cur_pos + c1)
         end_pos c2 (sk_next_hashes r1) = Some r
    /\ hc_matchfinder_skip_positions lz_hash (fst st) buf cur_pos end_pos
         (c1 + c2) (snd st) = Some r.
Proof.
  intros H1 H2 Hu Htest.
  destruct (skip_positions_spec lz_hash buf st cur_pos end_pos c1 H1)
    as (r1 & Hr1 & Hs1 & Hst1).
  destruct (skip_positions_spec lz_hash buf (sk_mf r1, sk_next_hashes r1)
              (cur_pos + c1) end_pos c2 H2) as (r2 & Hr2 & Hs2 & Hst2).
  destruct (skip_positions_spec lz_hash buf st cur_pos end_pos (c1 + c2)
              ltac:(lia)) as (r & Hr & Hs & Hst).
  exists r1, r2. split; [exact Hr1|]. split; [exact Hr2|].
  rewrite Hr. f_equal.
  unfold after_skip in Hst1, Hst2, Hst.
  rewrite u32_small in Hst1, Hst2, Hst by lia.
  replace (c1 + 5 <=? end_pos - cur_pos) with true in Hst1
    by (symmetry; apply Z.leb_le; lia).
  replace (c2 + 5 <=? end_pos - (cur_pos + c1)) with true in Hst2
    by (symmetry; apply Z.leb_le; lia).
  replace (c1 + c2 + 5 <=? end_pos - cur_pos) with true in Hst
    by (symmetry; apply Z.leb_le; lia).
  rewrite Hst1 in Hst2.
  replace (cur_pos + c1) with (cur_pos + Z.of_nat (Z.to_nat c1)) in Hst2
    at 1 by lia.
  rewrite <- insert_positions_app in Hst2.
  replace (Z.to_nat c1 + Z.to_nat c2)%nat with (Z.to_nat (c1 + c2)) in Hst2
    by lia.
  rewrite <- Hst2 in Hst.
  destruct r as [s m h], r2 as [s2 m2 h2]. cbn in *.
  injection Hst as -> ->. f_equal. lia.
Qed.

(** X6.  A skip never resizes a table, never writes a chain link outside
    the range it covers, and leaves in every bucket of the two hash tables
    the entry that was there or a position of the range. *)
Theorem skip_frame (lz_hash : Z -> Z -> Z) (buf : list byte)
    (st : mf_state) (cur_pos end_pos count q h : Z) :
  0 < count -> 0 <= cur_pos -> cur_pos + count <= 2 ^ 32 ->
  q < cur_pos \/ cur_pos + count <= q ->
  exists r,
    hc_matchfinder_skip_positions lz_hash (fst st) buf cur_pos end_pos
      count (snd st) = Some r
    /\ length (hash3_tab (sk_mf r)) = length (hash3_tab (fst st))
    /\ length (hash4_tab (sk_mf r)) = length (hash4_tab (fst st))
    /\ length (next_tab (sk_mf r)) = length (next_tab (fst st))
    /\ arr_get (next_tab (sk_mf r)) q = arr_get (next_tab (fst st)) q
    /\ (arr_get (hash3_tab (sk_mf r)) h = arr_get (hash3_tab (fst st)) h
        \/ cur_pos <= arr_get (hash3_tab (sk_mf r)) h < cur_pos + count)
    /\ (arr_get (hash4_tab (sk_mf r)) h = arr_get (hash4_tab (fst st)) h
        \/ cur_pos <= arr_get (hash4_tab (sk_mf r)) h < cur_pos + count).
Proof.
  intros Hc Hp Hend Hq.
  destruct (skip_positions_spec lz_hash buf st cur_pos end_pos count Hc)
    as (r & Hr & _ & Hst).
  exists r. split; [exact Hr|].
  apply (f_equal fst) in Hst. cbn [fst] in Hst. rewrite Hst.
  unfold after_skip. destruct (_ <=? _); [|by repeat split; try left].
  destruct (insert_positions_lengths lz_hash buf (Z.to_nat count) st cur_pos)
    as (L3 & L4 & Ln).
  destruct (insert_positions_buckets lz_hash buf (Z.to_nat count) st cur_pos h
              Hp ltac:(lia)) as [B3 B4].
  cbn zeta in B3, B4. rewrite Z2Nat.id in B3, B4 by lia.
  repeat split; try assumption.
  apply insert_positions_links. lia.
Qed.

(** ** Insertion as seen from the chains *)

Lemma chain_walk_sound (nt : list Z) (fuel : nat) :
  forall v l, chain_walk fuel nt v = Some l -> chain nt v l.
Proof.
  induction fuel as [|fuel IH]; intros v l; simpl; [discriminate|].
  destruct (v =? 0) eqn:Hv.
  - intros [= <-]. apply Z.eqb_eq in Hv as ->. constructor.
  - destruct (chain_walk fuel nt (arr_get nt v)) as [l'|] eqn:Hw;
      [|discriminate].
    intros [= <-]. constructor; [lia|]. by apply IH.
Qed.

Lemma chain_head (nt : list Z) (v : Z) (l : list Z) :
  chain nt v l -> v = hd 0 l.
Proof. by destruct 1. Qed.

Lemma chain_after_insert (lz_hash : Z -> Z -> Z) (buf : list byte)
    (n p h : Z) (st : mf_state) (l l0 : list Z) :
  0 <= n <= p -> p < 2 ^ 32 ->
  chain (next_tab (fst st)) (arr_get (hash4_tab (fst st)) h) l ->
  descending n l ->
  chain (next_tab (fst st)) (arr_get (hash4_tab (fst st)) (snd (snd st))) l0 ->
  descending n l0 ->
  let mf' := fst (insert_position lz_hash buf st p) in
  let l' := chain_after h (snd (snd st)) p (length (hash4_tab (fst st)))
              (length (next_tab (fst st))) l l0 in
  chain (next_tab mf') (arr_get (hash4_tab mf') h) l'
  /\ descending (p + 1) l'.
Proof.
  intros Hn Hp Hc Hd Hc0 Hd0. destruct st as [mf [hash3 hash4]].
  cbn [fst snd] in *. cbn zeta. unfold insert_position, chain_after.
  cbn [fst snd hash4_tab next_tab]. rewrite (u32_small p) by lia.
  destruct (decide (h = hash4 /\ _)) as [[-> Hin]|Hnot].
  - rewrite arr_get_set_eq by exact Hin.
    destruct (decide (p = 0)) as [->|Hp0]; [split; [constructor|exact I]|].
    destruct (decide (0 <= p < _)) as [Hpin|Hpout].
    + split.
      * constructor; [exact Hp0|]. rewrite arr_get_set_eq by exact Hpin.
        eapply chain_set_above; [|exact Hc0|exact Hd0]. lia.
      * simpl. split; [lia|]. eapply descending_weaken; [|exact Hd0]. lia.
    + split.
      * constructor; [exact Hp0|].
        rewrite (arr_get_outside (arr_set _ p _) p)
          by (by rewrite arr_set_length).
        constructor.
      * simpl. split; [lia|exact I].
  - assert (Hhead : arr_get (arr_set (hash4_tab mf) hash4 p) h
                    = arr_get (hash4_tab mf) h).
    { destruct (decide (h = hash4)) as [->|Hne]; [|by apply arr_get_set_ne].
      rewrite !arr_get_outside; [reflexivity| |]; try rewrite arr_set_length;
        intros ?; apply Hnot; by split. }
    rewrite Hhead. split.
    + eapply chain_set_above; [|exact Hc|exact Hd]. lia.
    + eapply descending_weaken; [|exact Hd]. lia.
Qed.

(** X7.  Insert then look up: after a search at [p > 0] with
    [max_len >= 5], made with hash codes and a position inside the tables,
    the short-table bucket reads [p], the chain of the long-table bucket
    is [p] followed by the chain that was there, and the chain of any
    other bucket is what it was. *)
Theorem search_prepends (lz_hash : Z -> Z -> Z) (fast : bool)
    (buf : list byte) (n : Z) (st : mf_state)
    (p best_len max_len nice_len max_search_depth h : Z) (l l' : list Z) :
  reachable lz_hash fast buf n st ->
  n <= p < 2 ^ 32 -> 0 < p -> 5 <= max_len ->
  0 <= fst (snd st) < Z.of_nat (length (hash3_tab (fst st))) ->
  0 <= snd (snd st) < Z.of_nat (length (hash4_tab (fst st))) ->
  p < Z.of_nat (length (next_tab (fst st))) ->
  chain (next_tab (fst st)) (arr_get (hash4_tab (fst st)) (snd (snd st))) l ->
  h <> snd (snd st) ->
  chain (next_tab (fst st)) (arr_get (hash4_tab (fst st)) h) l' ->
  exists r,
    hc_matchfinder_longest_match lz_hash fast (fst st) buf p best_len
      max_len nice_len max_search_depth (snd st) = Some r
    /\ arr_get (hash3_tab (sr_mf r)) (fst (snd st)) = p
    /\ chain (next_tab (sr_mf r))
         (arr_get (hash4_tab (sr_mf r)) (snd (snd st))) (p :: l)
    /\ chain (next_tab (sr_mf r)) (arr_get (hash4_tab (sr_mf r)) h) l'.
Proof.
  intros Hr Hp Hp0 Hml Hh3 Hh4 Hpn Hc Hne Hc'.
  apply reachable_inv in Hr as [Hn Hinv].
  destruct (longest_match_spec lz_hash fast buf n p best_len max_len
              nice_len max_search_depth st Hinv ltac:(lia) ltac:(lia))
    as (r & Hs & _ & Hst).
  exists r. split; [exact Hs|].
  apply (f_equal fst) in Hst. cbn [fst] in Hst. rewrite Hst.
  unfold after_search. replace (max_len <? 5) with false
    by (symmetry; apply Z.ltb_ge; lia).
  destruct Hinv as [_ H4].
  assert (Hd : descending n l).
  { destruct (H4 (snd (snd st))) as (l1 & Hc1 & Hd1).
    by rewrite (chain_functional _ _ _ _ Hc Hc1). }
  assert (Hd' : descending n l').
  { destruct (H4 h) as (l1 & Hc1 & Hd1).
    by rewrite (chain_functional _ _ _ _ Hc' Hc1). }
  split; [|split].
  - unfold insert_position. cbn [fst hash3_tab].
    rewrite arr_get_set_eq by exact Hh3. apply u32_small. lia.
  - destruct (chain_after_insert lz_hash buf n p (snd (snd st)) st l l
                ltac:(lia) ltac:(lia) Hc Hd Hc Hd) as [Hch _].
    cbn zeta in Hch. unfold chain_after in Hch.
    rewrite decide_True in Hch by (by split).
    rewrite decide_False in Hch by lia.
    rewrite decide_True in Hch by lia. exact Hch.
  - destruct (chain_after_insert lz_hash buf n p h st l' l
                ltac:(lia) ltac:(lia) Hc' Hd' Hc Hd) as [Hch _].
    cbn zeta in Hch. unfold chain_after in Hch.
    rewrite decide_False in Hch by (intros [? _]; contradiction).
    exact Hch.
Qed.

(** ** A reset forgets the previous input *)

Lemma same_index_inv (n : Z) (mf1 mf2 : hc_matchfinder) :
  same_index n mf1 mf2 -> mf_inv n mf1.
Proof.
  intros (_ & _ & _ & H4 & H3). split; [exact H3|].
  intros h. destruct (H4 h) as (l & Hc & _ & Hd). eauto.
Qed.

Lemma same_index_init (mf1 mf2 : hc_matchfinder) :
  length (next_tab mf1) = length (next_tab mf2) ->
  same_index 0 (hc_matchfinder_init mf1) (hc_matchfinder_init mf2).
Proof.
  intros Hlen. unfold same_index, hc_matchfinder_init.
  cbn [hash3_tab hash4_tab next_tab].
  repeat split; try reflexivity; try exact Hlen; intros h;
    rewrite arr_get_replicate.
  - exists []. repeat split; constructor.
  - by left.
Qed.

Section SameIndex.
Variable lz_hash : Z -> Z -> Z.
Variable UNALIGNED_ACCESS_IS_FAST : bool.
Variable buf : list byte.

Lemma same_index_insert (n p : Z) (mf1 mf2 : hc_matchfinder) (nh : Z * Z) :
  0 <= n <= p -> p < 2 ^ 32 ->
  same_index n mf1 mf2 ->
  same_index (p + 1) (fst (insert_position lz_hash buf (mf1, nh) p))
    (fst (insert_position lz_hash buf (mf2, nh) p)).
Proof.
  intros Hn Hp Hsame.
  pose proof (same_index_inv _ _ _ Hsame) as Hinv.
  destruct Hsame as (E3 & E4 & En & H4 & H3).
  split; [|split; [|split; [|split]]].
  - unfold insert_position. cbn [fst snd hash3_tab]. by rewrite E3.
  - unfold insert_position. cbn [fst snd hash4_tab]. by rewrite E4.
  - unfold insert_position. cbn [fst snd next_tab].
    by rewrite !arr_set_length.
  - intros h. destruct (H4 h) as (l & Hc1 & Hc2 & Hd).
    destruct (H4 (snd nh)) as (l0 & Hc01 & Hc02 & Hd0).
    destruct (chain_after_insert lz_hash buf n p h (mf1, nh) l l0
                Hn Hp Hc1 Hd Hc01 Hd0) as [Ha1 Hb1].
    destruct (chain_after_insert lz_hash buf n p h (mf2, nh) l l0
                Hn Hp Hc2 Hd Hc02 Hd0) as [Ha2 _].
    cbn zeta in Ha1, Hb1, Ha2. cbn [fst snd] in Ha1, Hb1, Ha2.
    rewrite <- E4, <- En in Ha2. eauto.
  - apply (mf_inv_insert lz_hash buf n p (mf1, nh) Hn Hp Hinv).
Qed.

Lemma same_index_insert_positions (count : nat) :
  forall n p mf1 mf2 nh,
    0 <= n <= p -> p + Z.of_nat count <= 2 ^ 32 ->
    same_index n mf1 mf2 ->
    same_index (p + Z.of_nat count)
      (fst (insert_positions lz_hash buf (mf1, nh) p count))
      (fst (insert_positions lz_hash buf (mf2, nh) p count))
    /\ snd (insert_positions lz_hash buf (mf1, nh) p count)
       = snd (insert_positions lz_hash buf (mf2, nh) p count).
Proof.
  induction count as [|count IH]; intros n p mf1 mf2 nh Hn Hp Hsame.
  - cbn [insert_positions fst snd]. rewrite Z.add_0_r. split; [|reflexivity].
    destruct Hsame as (E3 & E4 & En & H4 & H3).
    repeat split; try assumption.
    + intros h. destruct (H4 h) as (l & ? & ? & Hd). exists l.
      repeat split; try assumption. eapply descending_weaken; [|exact Hd]. lia.
    + intros h. destruct (H3 h); [by left|right; lia].
  - cbn [insert_positions].
    replace (p + Z.of_nat (S count)) with (p + 1 + Z.of_nat count) by lia.
    pose proof (same_index_insert n p mf1 mf2 nh Hn ltac:(lia) Hsame) as Hs.
    destruct (insert_position lz_hash buf (mf1, nh) p) as [m1 h1] eqn:E1.
    destruct (insert_position lz_hash buf (mf2, nh) p) as [m2 h2] eqn:E2.
    assert (h1 = h2) as <-.
    { apply (f_equal snd) in E1, E2. cbn in E1, E2. congruence. }
    apply (IH (p + 1)); [lia|lia|exact Hs].
Qed.

Lemma descending_tail (n v : Z) (l : list Z) :
  descending n (v :: l) -> descending n l.
Proof. intros [Hv Hd]. eapply descending_weaken; [|exact Hd]. lia. Qed.

Lemma find_longer_same (mf1 mf2 : hc_matchfinder)
    (p max_len nice_len : Z) (fuel : nat) :
  forall v d bl bm l,
    v <> 0 ->
    chain (next_tab mf1) v l -> chain (next_tab mf2) v l ->
    find_longer UNALIGNED_ACCESS_IS_FAST fuel mf1 buf p max_len nice_len
      v d bl bm
    = find_longer UNALIGNED_ACCESS_IS_FAST fuel mf2 buf p max_len nice_len
        v d bl bm.
Proof.
  induction fuel as [|fuel IH]; intros v d bl bm l Hv Hc1 Hc2;
    [reflexivity|].
  inversion Hc1 as [|v1 l1 _ Hc1']; subst; [congruence|].
  inversion Hc2 as [|v2 l2 _ Hc2']; subst.
  assert (Hnext : arr_get (next_tab mf1) v = arr_get (next_tab mf2) v).
  { rewrite (chain_head _ _ _ Hc1'), (chain_head _ _ _ Hc2'). reflexivity. }
  cbn [find_longer]. rewrite <- Hnext.
  destruct (longer_candidate _ _ _ _ _).
  - destruct (_ && _); [reflexivity|].
    destruct (arr_get (next_tab mf1) v =? 0) eqn:Hz; [reflexivity|].
    destruct (u32 (d - 1) =? 0); [reflexivity|].
    apply (IH _ _ _ _ l1); [lia|exact Hc1'|by rewrite Hnext].
  - destruct (arr_get (next_tab mf1) v =? 0) eqn:Hz; [reflexivity|].
    destruct (u32 (d - 1) =? 0); [reflexivity|].
    apply (IH _ _ _ _ l1); [lia|exact Hc1'|by rewrite Hnext].
Qed.

Lemma find_len4_same (mf1 mf2 : hc_matchfinder) (seq4 : Z) (fuel : nat) :
  forall v d l,
    v <> 0 ->
    chain (next_tab mf1) v l -> chain (next_tab mf2) v l ->
    find_len4 fuel mf1 buf seq4 v d = find_len4 fuel mf2 buf seq4 v d
    /\ forall v' d',
         find_len4 fuel mf1 buf seq4 v d = Some (Break v' d') ->
         v' <> 0 /\ exists l',
           chain (next_tab mf1) v' (v' :: l')
           /\ chain (next_tab mf2) v' (v' :: l').
Proof.
  induction fuel as [|fuel IH]; intros v d l Hv Hc1 Hc2;
    [split; [reflexivity|discriminate]|].
  inversion Hc1 as [|v1 l1 _ Hc1']; subst; [congruence|].
  inversion Hc2 as [|v2 l2 _ Hc2']; subst.
  assert (Hnext : arr_get (next_tab mf1) v = arr_get (next_tab mf2) v).
  { rewrite (chain_head _ _ _ Hc1'), (chain_head _ _ _ Hc2'). reflexivity. }
  cbn [find_len4]. rewrite <- Hnext.
  destruct (load_u32_unaligned buf v =? seq4).
  - split; [reflexivity|]. intros v' d' [= <- <-]. split; [exact Hv|eauto].
  - destruct (arr_get (next_tab mf1) v =? 0) eqn:Hz;
      [split; [reflexivity|discriminate]|].
    destruct (u32 (d - 1) =? 0); [split; [reflexivity|discriminate]|].
    apply (IH _ _ l1); [lia|exact Hc1'|by rewrite Hnext].
Qed.

Lemma search_chains_same (mf1 mf2 : hc_matchfinder)
    (p bl max_len nice_len depth c3 c4 : Z) (l : list Z) :
  chain (next_tab mf1) c4 l -> chain (next_tab mf2) c4 l ->
  search_chains UNALIGNED_ACCESS_IS_FAST mf1 buf p bl max_len nice_len
    depth c3 c4
  = search_chains UNALIGNED_ACCESS_IS_FAST mf2 buf p bl max_len nice_len
      depth c3 c4.
Proof.
  intros Hc1 Hc2. unfold search_chains. destruct (bl <? 4).
  - destruct (c3 =? 0); [reflexivity|].
    destruct (if (bl <? 3) && _ then _ else _) as [bl' bm'].
    destruct (c4 =? 0) eqn:Hc4; [reflexivity|].
    destruct (find_len4_same mf1 mf2 (load_u32_unaligned buf p)
                (depth_fuel depth) c4 depth l ltac:(lia) Hc1 Hc2)
      as [Heq Hbreak].
    rewrite <- Heq.
    destruct (find_len4 _ mf1 buf _ c4 depth) as [[v d|]|]; try reflexivity.
    destruct (Hbreak v d eq_refl) as (Hv & l' & Hv1 & Hv2).
    inversion Hv1 as [|? ? _ Hn1]; subst.
    inversion Hv2 as [|? ? _ Hn2]; subst.
    assert (Hnext : arr_get (next_tab mf1) v = arr_get (next_tab mf2) v).
    { rewrite (chain_head _ _ _ Hn1), (chain_head _ _ _ Hn2). reflexivity. }
    rewrite <- Hnext.
    destruct (_ >=? nice_len); [reflexivity|].
    destruct (arr_get (next_tab mf1) v =? 0) eqn:Hz; [reflexivity|].
    destruct (u32 (d - 1) =? 0); [reflexivity|].
    apply (find_longer_same _ _ _ _ _ _ _ _ _ _ l');
      [lia|exact Hn1|by rewrite Hnext].
  - destruct (c4 =? 0) eqn:Hc4; [reflexivity|]. cbn [orb].
    destruct (bl >=? nice_len); [reflexivity|].
    apply (find_longer_same _ _ _ _ _ _ _ _ _ _ l); [lia|exact Hc1|exact Hc2].
Qed.

Lemma longest_match_same (n p bl max_len nice_len depth : Z)
    (mf1 mf2 : hc_matchfinder) (nh : Z * Z) :
  0 <= n <= p -> p < 2 ^ 32 ->
  same_index n mf1 mf2 ->
  exists r1 r2,
    hc_matchfinder_longest_match lz_hash UNALIGNED_ACCESS_IS_FAST mf1 buf p
      bl max_len nice_len depth nh = Some r1
    /\ hc_matchfinder_longest_match lz_hash UNALIGNED_ACCESS_IS_FAST mf2 buf
         p bl max_len nice_len depth nh = Some r2
    /\ (sr_len r1, sr_offset r1) = (sr_len r2, sr_offset r2)
    /\ sr_next_hashes r1 = sr_next_hashes r2
    /\ same_index (p + 1) (sr_mf r1) (sr_mf r2).
Proof.
  intros Hn Hp Hsame.
  pose proof (same_index_insert n p mf1 mf2 nh Hn Hp Hsame) as Hins.
  destruct Hsame as (E3 & E4 & En & H4 & H3).
  unfold hc_matchfinder_longest_match.
  destruct (max_len <? 5).
  - eexists _, _. split; [reflexivity|]. split; [reflexivity|].
    cbn [sr_len sr_offset sr_next_hashes sr_mf].
    split; [reflexivity|]. split; [reflexivity|].
    repeat split; try assumption.
    + intros h. destruct (H4 h) as (l & ? & ? & Hd). exists l.
      repeat split; try assumption. eapply descending_weaken; [|exact Hd]. lia.
    + intros h. destruct (H3 h); [by left|right; lia].
  - destruct (H4 (snd nh)) as (l & Hc1 & Hc2 & Hd).
    rewrite <- E3, <- E4.
    match goal with
    | |- context [search_chains ?f ?m1 ?b ?i ?b0 ?ml ?nl ?d ?c3 ?c4] =>
        match goal with
        | |- context [search_chains f ?m2 b i b0 ml nl d c3 c4] =>
            lazymatch m2 with
            | m1 => fail
            | _ => 
              assert (Hs : search_chains f m1 b i b0 ml nl d c3 c4
                           = search_chains f m2 b i b0 ml nl d c3 c4)
            end
        end
    end.
    { apply (search_chains_same _ _ _ _ _ _ _ _ _ l); cbn [next_tab].
      - eapply chain_set_above; [|exact Hc1|exact Hd]. lia.
      - rewrite E4. eapply chain_set_above; [|exact Hc2|exact Hd]. lia. }
    rewrite <- Hs.
    match goal with
    | |- context [search_chains ?f ?m ?b ?i ?b0 ?ml ?nl ?d ?c3 ?c4] =>
        destruct (search_chains_terminates f m b i b0 ml nl d c3 c4)
          as [[bl' bm'] ->]
    end.
    eexists _, _. split; [reflexivity|]. split; [reflexivity|].
    cbn [sr_len sr_offset sr_next_hashes sr_mf].
    split; [reflexivity|]. split; [reflexivity|].
    unfold insert_position in Hins. cbn [fst snd] in Hins.
    rewrite <- E3, <- E4 in Hins. exact Hins.
Qed.

Lemma run_calls_same (cs : list call) :
  forall n st1 st2,
    0 <= n -> calls_ok n cs ->
    same_index n (fst st1) (fst st2) -> snd st1 = snd st2 ->
    exists st1' st2' outs,
      run_calls lz_hash UNALIGNED_ACCESS_IS_FAST buf st1 cs
      = Some (st1', outs)
      /\ run_calls lz_hash UNALIGNED_ACCESS_IS_FAST buf st2 cs
         = Some (st2', outs).
Proof.
  induction cs as [|c cs IH]; intros n [mf1 nh1] [mf2 nh2] Hn Hok Hsame Hnh;
    cbn [fst snd] in *; subst nh2.
  - by eexists _, _, _.
  - destruct Hok as [Hc Hrest]. cbn [run_calls].
    destruct c as [p bl ml nl d|p e cnt]; cbn [run_call fst snd].
    + cbn in Hc, Hrest.
      destruct (longest_match_same n p bl ml nl d mf1 mf2 nh1 ltac:(lia)
                  ltac:(lia) Hsame) as (r1 & r2 & -> & -> & Hout & Hnh & Hs).
      destruct (IH (p + 1) (sr_mf r1, sr_next_hashes r1)
                  (sr_mf r2, sr_next_hashes r2) ltac:(lia) Hrest Hs Hnh)
        as (s1 & s2 & outs & -> & ->).
      rewrite Hout. by eexists _, _, _.
    + cbn in Hc, Hrest. destruct Hc as (Hp & Hcnt & Hend).
      destruct (skip_positions_spec lz_hash buf (mf1, nh1) p e cnt Hcnt)
        as (r1 & Hr1 & _ & Hst1).
      destruct (skip_positions_spec lz_hash buf (mf2, nh1) p e cnt Hcnt)
        as (r2 & Hr2 & _ & Hst2).
      cbn [fst snd] in Hr1, Hr2. rewrite Hr1, Hr2.
      assert (Hs : same_index (p + cnt) (sk_mf r1) (sk_mf r2)
                   /\ sk_next_hashes r1 = sk_next_hashes r2).
      { apply (f_equal fst) in Hst1 as Hm1. apply (f_equal snd) in Hst1 as Hh1.
        apply (f_equal fst) in Hst2 as Hm2. apply (f_equal snd) in Hst2 as Hh2.
        cbn [fst snd] in Hm1, Hh1, Hm2, Hh2. rewrite Hm1, Hh1, Hm2, Hh2.
        unfold after_skip. destruct (_ <=? _).
        - replace (p + cnt) with (p + Z.of_nat (Z.to_nat cnt)) by lia.
          apply (same_index_insert_positions _ n); [lia|lia|exact Hsame].
        - cbn [fst snd]. split; [|reflexivity].
          destruct Hsame as (E3 & E4 & En & H4 & H3).
          repeat split; try assumption.
          + intros h. destruct (H4 h) as (l & ? & ? & Hd). exists l.
            repeat split; try assumption.
            eapply descending_weaken; [|exact Hd]. lia.
          + intros h. destruct (H3 h); [by left|right; lia]. }
      destruct Hs as [Hs Hnh].
      destruct (IH (p + cnt) (sk_mf r1, sk_next_hashes r1)
                  (sk_mf r2, sk_next_hashes r2) ltac:(lia) Hrest Hs Hnh)
        as (s1 & s2 & outs & -> & ->).
      by eexists _, _, _.
Qed.

End SameIndex.

(** X8.  What a matchfinder held before [hc_matchfinder_init] does not
    show afterwards: two matchfinders of the same size, reset, return the
    same lengths and offsets along every history of calls at strictly
    increasing positions, whatever their chain-link tables held. *)
Theorem reset_forgets_history (lz_hash : Z -> Z -> Z) (fast : bool)
    (buf : list byte) (mf1 mf2 : hc_matchfinder) (next_hashes : Z * Z)
    (cs : list call) :
  length (next_tab mf1) = length (next_tab mf2) ->
  calls_ok 0 cs ->
  exists st1 st2 outs,
    run_calls lz_hash fast buf (hc_matchfinder_init mf1, next_hashes) cs
    = Some (st1, outs)
    /\ run_calls lz_hash fast buf (hc_matchfinder_init mf2, next_hashes) cs
       = Some (st2, outs).
Proof.
  intros Hlen Hok.
  apply (run_calls_same lz_hash fast buf cs 0); [lia|exact Hok| |reflexivity].
  by apply same_index_init.
Qed.

(** ** Matches of length 4 or more cannot be extended *)

Section Best.
Variable lz_hash : Z -> Z -> Z.
Variable UNALIGNED_ACCESS_IS_FAST : bool.
Variable buf : list byte.

Lemma find_longer_stops (mf : hc_matchfinder) (p max_len nice_len : Z)
    (fuel : nat) :
  forall v d bl bm r,
    find_longer UNALIGNED_ACCESS_IS_FAST fuel mf buf p max_len nice_len
      v d bl bm = Some r ->
    r = (bl, bm) \/ (bl < fst r /\ stops_at buf p max_len r).
Proof.
  induction fuel as [|fuel IH]; intros v d bl bm r; simpl; [discriminate|].
  destruct (longer_candidate _ _ _ _ _).
  - set (len := lz_extend buf p v _ max_len).
    assert (Hstop : stops_at buf p max_len (len, v))
      by (intros H; apply lz_extend_stops; exact H).
    destruct (len >? bl) eqn:Hgt.
    + assert (Hlt : bl < len) by lia.
      destruct (true && _); [intros [= <-]; right; by split|].
      destruct (arr_get (next_tab mf) v =? 0); [intros [= <-]; right; by split|].
      destruct (u32 (d - 1) =? 0); [intros [= <-]; right; by split|].
      intros Hrec. apply IH in Hrec. right.
      destruct Hrec as [->|[? ?]]; [by split|]. split; [lia|assumption].
    + cbn [andb].
      destruct (arr_get (next_tab mf) v =? 0); [intros [= <-]; by left|].
      destruct (u32 (d - 1) =? 0); [intros [= <-]; by left|].
      apply IH.
  - destruct (arr_get (next_tab mf) v =? 0); [intros [= <-]; by left|].
    destruct (u32 (d - 1) =? 0); [intros [= <-]; by left|].
    apply IH.
Qed.

Lemma search_chains_stops (mf : hc_matchfinder)
    (p bl0 max_len nice_len depth c3 c4 : Z) (r : Z * Z) :
  search_chains UNALIGNED_ACCESS_IS_FAST mf buf p bl0 max_len nice_len
    depth c3 c4 = Some r ->
  4 <= fst r -> bl0 < fst r -> stops_at buf p max_len r.
Proof.
  unfold search_chains. destruct (bl0 <? 4) eqn:Hbl.
  - destruct (c3 =? 0); [intros [= <-]; simpl; lia|].
    set (b3 := if (bl0 <? 3) && _ then (3, c3) else (bl0, p)).
    assert (Hb3 : fst b3 < 4).
    { subst b3. destruct (_ && _); simpl; lia. }
    destruct b3 as [bl bm]. cbn [fst] in Hb3.
    destruct (c4 =? 0); [intros [= <-]; simpl; lia|].
    destruct (find_len4 _ mf buf _ c4 depth) as [[v d|]|];
      [|intros [= <-]; simpl; lia|discriminate].
    assert (Hstop : stops_at buf p max_len (lz_extend buf p v 4 max_len, v))
      by (intros H; apply lz_extend_stops; exact H).
    destruct (_ >=? nice_len); [by intros [= <-]|].
    destruct (arr_get (next_tab mf) v =? 0); [by intros [= <-]|].
    destruct (u32 (d - 1) =? 0); [by intros [= <-]|].
    intros Hrec _ _. apply find_longer_stops in Hrec.
    destruct Hrec as [->|[_ ?]]; assumption.
  - destruct (_ || _); [intros [= <-]; simpl; lia|].
    intros Hrec _ Hlt. apply find_longer_stops in Hrec.
    destruct Hrec as [->|[_ ?]]; [simpl in Hlt; lia|assumption].
Qed.

(** ** The best candidate within the depth *)

Lemma in_firstn (A : Type) (x : A) (n : nat) (l : list A) :
  In x (firstn n l) -> In x l.
Proof.
  revert l. induction n as [|n IH]; intros [|y l]; simpl; try tauto.
  intros [->|H]; [by left|right; by apply IH].
Qed.

Lemma chain_zero (nt : list Z) (l : list Z) : chain nt 0 l -> l = [].
Proof. inversion 1; [reflexivity|congruence]. Qed.

Lemma find_longer_best (mf : hc_matchfinder) (p max_len nice_len : Z)
    (fuel : nat) :
  4 <= max_len ->
  forall v d bl bm l r,
    3 <= bl -> 1 <= d < 2 ^ 32 ->
    chain (next_tab mf) v l -> v <> 0 ->
    find_longer UNALIGNED_ACCESS_IS_FAST fuel mf buf p max_len nice_len
      v d bl bm = Some r ->
    bl <= fst r
    /\ (nice_len <= fst r
        \/ forall v' k, In v' (firstn (Z.to_nat d) l) ->
             k <= max_len -> match_at buf p v' k -> k <= fst r).
Proof.
  intros Hmax.
  induction fuel as [|fuel IH]; intros v d bl bm l r Hbl Hd Hc Hv;
    simpl; [discriminate|].
  inversion Hc as [|v0 l' _ Hc']; subst; [congruence|].
  replace (Z.to_nat d) with (S (Z.to_nat (d - 1))) by lia.
  cbn [firstn].
  (* what the node [v] itself allows *)
  assert (Hstep : forall bl' bm' : Z,
             bl <= bl' ->
             (forall k, k <= max_len -> match_at buf p v k -> k <= bl') ->
             forall r',
               (if arr_get (next_tab mf) v =? 0 then Some (bl', bm')
                else if u32 (d - 1) =? 0 then Some (bl', bm')
                else find_longer UNALIGNED_ACCESS_IS_FAST fuel mf buf p
                       max_len nice_len (arr_get (next_tab mf) v)
                       (u32 (d - 1)) bl' bm') = Some r' ->
               bl <= fst r'
               /\ (nice_len <= fst r'
                   \/ forall v' k,
                        v = v' \/ In v' (firstn (Z.to_nat (d - 1)) l') ->
                        k <= max_len -> match_at buf p v' k -> k <= fst r')).
  { intros bl' bm' Hle Hhere r'.
    rewrite (u32_small (d - 1)) by lia.
    destruct (arr_get (next_tab mf) v =? 0) eqn:Hz.
    - intros [= <-]. split; [simpl; lia|right].
      apply Z.eqb_eq in Hz. rewrite Hz in Hc'. apply chain_zero in Hc' as ->.
      intros v' k [<-|Hin] Hk Hm; [by apply Hhere|].
      by destruct (Z.to_nat (d - 1)).
    - destruct (d - 1 =? 0) eqn:Hd1.
      + intros [= <-]. split; [simpl; lia|right].
        apply Z.eqb_eq in Hd1. rewrite Hd1.
        intros v' k [<-|Hin] Hk Hm; [by apply Hhere|destruct Hin].
      + intros Hrec.
        apply (IH _ _ _ _ l') in Hrec; [|lia|lia|exact Hc'|lia].
        destruct Hrec as [Hge Hbest]. split; [lia|].
        destruct Hbest as [?|Hbest]; [by left|right].
        intros v' k [<-|Hin] Hk Hm; [|by apply (Hbest v')].
        specialize (Hhere k Hk Hm). lia. }
  destruct (longer_candidate _ _ _ _ _) eqn:Hcand.
  - set (len := lz_extend buf p v _ max_len).
    assert (Hlen : forall k, k <= max_len -> match_at buf p v k -> k <= len).
    { intros k Hk Hm. apply lz_extend_ge; [|exact Hk|exact Hm].
      destruct UNALIGNED_ACCESS_IS_FAST; lia. }
    destruct (len >? bl) eqn:Hgt.
    + cbn [andb]. destruct (len >=? nice_len) eqn:Hnice.
      * intros [= <-]. split; [simpl; lia|left; simpl; lia].
      * apply Hstep; [lia|exact Hlen].
    + cbn [andb]. apply Hstep; [lia|].
      intros k Hk Hm. specialize (Hlen k Hk Hm). lia.
  - apply Hstep; [lia|].
    intros k Hk Hm. destruct (Z.le_gt_cases k bl) as [|Hgt]; [assumption|].
    rewrite (longer_candidate_complete _ buf p v bl k Hbl Hgt Hm) in Hcand.
    discriminate.
Qed.

(** What the first loop has seen when it leaves: on [goto out], no node
    within the depth starts with the 4 bytes sought; on [break], the nodes
    [pre] before the one it stops on do not. *)
Lemma find_len4_best (mf : hc_matchfinder) (seq4 : Z) (fuel : nat) :
  forall v d l e,
    1 <= d < 2 ^ 32 ->
    chain (next_tab mf) v l -> v <> 0 ->
    find_len4 fuel mf buf seq4 v d = Some e ->
    match e with
    | GotoOut =>
        forall v', In v' (firstn (Z.to_nat d) l) ->
                   load_u32_unaligned buf v' <> seq4
    | Break v' d' =>
        exists pre l',
          l = pre ++ v' :: l'
          /\ (forall w, In w pre -> load_u32_unaligned buf w <> seq4)
          /\ load_u32_unaligned buf v' = seq4
          /\ d' = d - Z.of_nat (length pre) /\ 1 <= d' /\ v' <> 0
          /\ chain (next_tab mf) (arr_get (next_tab mf) v') l'
    end.
Proof.
  induction fuel as [|fuel IH]; intros v d l e Hd Hc Hv;
    simpl; [discriminate|].
  inversion Hc as [|v0 l' _ Hc']; subst; [congruence|].
  destruct (load_u32_unaligned buf v =? seq4) eqn:Heq.
  - intros [= <-]. exists [], l'. apply Z.eqb_eq in Heq. simpl.
    repeat split; try assumption; try lia; try tauto.
  - apply Z.eqb_neq in Heq.
    replace (Z.to_nat d) with (S (Z.to_nat (d - 1))) by lia.
    rewrite (u32_small (d - 1)) by lia.
    destruct (arr_get (next_tab mf) v =? 0) eqn:Hz.
    + intros [= <-]. apply Z.eqb_eq in Hz. rewrite Hz in Hc'.
      apply chain_zero in Hc' as ->. cbn [firstn].
      intros v' [<-|Hin]; [exact Heq|]. by destruct (Z.to_nat (d - 1)).
    + destruct (d - 1 =? 0) eqn:Hd1.
      * intros [= <-]. apply Z.eqb_eq in Hd1. rewrite Hd1. cbn [firstn Z.to_nat].
        intros v' [<-|Hin]; [exact Heq|destruct Hin].
      * intros Hrec.
        apply (IH _ _ l') in Hrec; [|lia|exact Hc'|lia].
        destruct e as [v' d'|].
        -- destruct Hrec as (pre & l'' & -> & Hpre & Hload & Hd' & Hd1' & Hv' & Hc'').
           exists (v :: pre), l''. cbn [length app].
           repeat split; try assumption; try lia.
           intros w [<-|Hin]; [exact Heq|by apply Hpre].
        -- cbn [firstn]. intros v' [<-|Hin]; [exact Heq|by apply Hrec].
Qed.

Lemma search_chains_best (mf : hc_matchfinder)
    (p bl0 max_len nice_len depth c3 c4 : Z) (l : list Z) (r : Z * Z) :
  5 <= max_len -> 1 <= depth < 2 ^ 32 ->
  4 <= bl0 \/ c3 <> 0 ->
  chain (next_tab mf) c4 l ->
  search_chains UNALIGNED_ACCESS_IS_FAST mf buf p bl0 max_len nice_len
    depth c3 c4 = Some r ->
  nice_len <= fst r
  \/ forall v k, In v (firstn (Z.to_nat depth) l) ->
       4 <= k <= max_len -> match_at buf p v k -> k <= fst r.
Proof.
  intros Hmax Hdepth Hc3 Hc. unfold search_chains.
  assert (Hmax4 : 4 <= max_len) by lia.
  destruct (bl0 <? 4) eqn:Hbl.
  - destruct (c3 =? 0) eqn:Hc3z; [lia|].
    destruct (if (bl0 <? 3) && _ then _ else _) as [bl bm].
    destruct (c4 =? 0) eqn:Hc4.
    { intros _. right. apply Z.eqb_eq in Hc4. subst c4.
      apply chain_zero in Hc as ->. intros v k Hin.
      by destruct (Z.to_nat depth). }
    destruct (find_len4 _ mf buf _ c4 depth) as [e|] eqn:Hfind;
      [|discriminate].
    apply (find_len4_best _ _ _ _ _ l) in Hfind; [|lia|exact Hc|lia].
    destruct e as [v d|].
    + destruct Hfind as (pre & l' & -> & Hpre & Hload & Hd & Hd1 & Hv & Hc').
      set (ext := lz_extend buf p v 4 max_len).
      assert (Hext : 4 <= ext) by apply lz_extend_lower.
      assert (Hhere : forall k, k <= max_len -> match_at buf p v k -> k <= ext)
        by (intros k Hk Hm; apply lz_extend_ge; [lia|exact Hk|exact Hm]).
      (* membership in the first [depth] nodes of [pre ++ v :: l'] *)
      assert (Hsplit : forall w,
                 In w (firstn (Z.to_nat depth) (pre ++ v :: l')) ->
                 In w pre \/ w = v \/ In w (firstn (Z.to_nat (d - 1)) l')).
      { intros w Hin. rewrite firstn_app in Hin.
        apply in_app_or in Hin as [Hin|Hin]; [left; by eapply in_firstn|].
        replace (Z.to_nat depth - length pre)%nat with (S (Z.to_nat (d - 1)))
          in Hin by lia.
        cbn [firstn] in Hin. destruct Hin as [<-|Hin]; auto. }
      assert (Hpre' : forall w k, In w pre -> 4 <= k ->
                        match_at buf p w k -> False).
      { intros w k Hin Hk Hm. apply (Hpre w Hin).
        rewrite <- (Z.add_0_r w), <- (Z.add_0_r p).
        apply (match_at_load_u32 buf p w k); [exact Hm|lia|lia]. }
      destruct (ext >=? nice_len) eqn:Hnice.
      { intros [= <-]. left. simpl. lia. }
      destruct (arr_get (next_tab mf) v =? 0) eqn:Hz.
      { intros [= <-]. right. apply Z.eqb_eq in Hz. rewrite Hz in Hc'.
        apply chain_zero in Hc' as ->.
        intros w k Hin Hk Hm. apply Hsplit in Hin as [Hin|[->|Hin]].
        - exfalso. eapply Hpre'; [exact Hin| |exact Hm]. lia.
        - apply Hhere; [lia|exact Hm].
        - by destruct (Z.to_nat (d - 1)). }
      rewrite (u32_small (d - 1)) by lia.
      destruct (d - 1 =? 0) eqn:Hd0.
      { intros [= <-]. right. apply Z.eqb_eq in Hd0. rewrite Hd0 in Hsplit.
        intros w k Hin Hk Hm. apply Hsplit in Hin as [Hin|[->|Hin]].
        - exfalso. eapply Hpre'; [exact Hin| |exact Hm]. lia.
        - apply Hhere; [lia|exact Hm].
        - destruct Hin. }
      intros Hrec.
      apply (find_longer_best _ _ _ _ _ Hmax4 _ _ _ _ l') in Hrec;
        [|lia|lia|exact Hc'|lia].
      destruct Hrec as [Hge [?|Hbest]]; [by left|right].
      intros w k Hin Hk Hm. apply Hsplit in Hin as [Hin|[->|Hin]].
      * exfalso. eapply Hpre'; [exact Hin| |exact Hm]. lia.
      * specialize (Hhere k ltac:(lia) Hm). lia.
      * apply (Hbest w k Hin); [lia|exact Hm].
    + intros _. right. intros v k Hin Hk Hm. exfalso.
      apply (Hfind v Hin).
      rewrite <- (Z.add_0_r v), <- (Z.add_0_r p).
      apply (match_at_load_u32 buf p v k); [exact Hm|lia|lia].
  - destruct (c4 =? 0) eqn:Hc4.
    { intros _. right. apply Z.eqb_eq in Hc4. subst c4.
      apply chain_zero in Hc as ->. intros v k Hin.
      by destruct (Z.to_nat depth). }
    cbn [orb]. destruct (bl0 >=? nice_len) eqn:Hnice.
    { intros [= <-]. left. simpl. lia. }
    intros Hrec.
    apply (find_longer_best _ _ _ _ _ Hmax4 _ _ _ _ l) in Hrec;
      [|lia|lia|exact Hc|lia].
    destruct Hrec as [_ [?|Hbest]]; [by left|right].
    intros v k Hin Hk Hm. apply (Hbest v k Hin); [lia|exact Hm].
Qed.

End Best.

(** X9.  In a state reached by calls at strictly increasing positions, a
    reported match of length 4 or more cannot be extended: its length is
    [max_len], or the byte after the match differs from the byte after
    its copy. *)
Theorem search_match_is_maximal (lz_hash : Z -> Z -> Z) (fast : bool)
    (buf : list byte) (n : Z) (st : mf_state)
    (p best_len max_len nice_len max_search_depth : Z) :
  reachable lz_hash fast buf n st ->
  n <= p < 2 ^ 32 ->
  exists r,
    hc_matchfinder_longest_match lz_hash fast (fst st) buf p best_len
      max_len nice_len max_search_depth (snd st) = Some r
    /\ (best_len < sr_len r -> 4 <= sr_len r -> sr_len r < max_len ->
        byte_at buf (p + sr_len r)
        <> byte_at buf (p - sr_offset r + sr_len r)).
Proof.
  intros Hr Hp. apply reachable_inv in Hr as [Hn [H3 H4]].
  destruct (longest_match_terminates fast lz_hash (fst st) buf p best_len
              max_len nice_len max_search_depth (snd st)) as [r Hs].
  exists r. split; [exact Hs|].
  unfold hc_matchfinder_longest_match in Hs.
  destruct (max_len <? 5) eqn:Hml.
  { injection Hs as <-. cbn [sr_len]. lia. }
  destruct (search_chains _ _ _ _ _ _ _ _ _ _) as [[bl bm]|] eqn:Hsc;
    [|discriminate].
  injection Hs as <-. cbn [sr_len sr_offset]. intros Hlt H4' Hmax.
  destruct (H4 (snd (snd st))) as (l & Hc & Hd).
  pose proof (search_chains_stops fast buf _ _ _ _ _ _ _ _ _ Hsc H4' Hlt)
    as Hstop.
  eapply search_chains_ok in Hsc.
  - destruct Hsc as [[Hb _]|(_ & Hm & _)]; cbn [fst snd] in *; [lia|].
    rewrite (u32_small (p - bm)) by lia.
    replace (p - (p - bm) + bl) with (bm + bl) by lia.
    apply Hstop. exact Hmax.
  - lia.
  - destruct (H3 (fst (snd st))); [by left|right; lia].
  - cbn [next_tab]. eapply chain_set_above; [|exact Hc|exact Hd]. lia.
  - eapply descending_weaken; [|exact Hd]. lia.
Qed.

Lemma longest_match_best (lz_hash : Z -> Z -> Z) (fast : bool)
    (buf : list byte) (n : Z) (st : mf_state)
    (p best_len max_len nice_len max_search_depth v k : Z) (l : list Z) :
  mf_inv n (fst st) ->
  0 <= n <= p -> p < 2 ^ 32 ->
  5 <= max_len ->
  1 <= max_search_depth < 2 ^ 32 ->
  4 <= best_len \/ arr_get (hash3_tab (fst st)) (fst (snd st)) <> 0 ->
  chain (next_tab (fst st)) (arr_get (hash4_tab (fst st)) (snd (snd st))) l ->
  In v (firstn (Z.to_nat max_search_depth) l) ->
  4 <= k <= max_len ->
  match_at buf p v k ->
  exists r,
    hc_matchfinder_longest_match lz_hash fast (fst st) buf p best_len
      max_len nice_len max_search_depth (snd st) = Some r
    /\ (k <= sr_len r \/ nice_len <= sr_len r).
Proof.
  intros [H3 H4] Hn Hp Hml Hdepth Hc3 Hc Hin Hk Hm.
  destruct (longest_match_terminates fast lz_hash (fst st) buf p best_len
              max_len nice_len max_search_depth (snd st)) as [r Hs].
  exists r. split; [exact Hs|].
  unfold hc_matchfinder_longest_match in Hs.
  replace (max_len <? 5) with false in Hs by (symmetry; apply Z.ltb_ge; lia).
  destruct (search_chains _ _ _ _ _ _ _ _ _ _) as [[bl bm]|] eqn:Hsc;
    [|discriminate].
  injection Hs as <-. cbn [sr_len].
  assert (Hd : descending n l).
  { destruct (H4 (snd (snd st))) as (l1 & Hc1 & Hd1).
    by rewrite (chain_functional _ _ _ _ Hc Hc1). }
  apply (search_chains_best fast buf _ _ _ _ _ _ _ _ l) in Hsc;
    [|lia|lia|exact Hc3|].
  - destruct Hsc as [?|Hbest]; [by right|left].
    apply (Hbest v k Hin Hk Hm).
  - cbn [next_tab]. eapply chain_set_above; [|exact Hc|exact Hd]. lia.
Qed.

(** X10.  A search of depth [max_depth >= 1], entered with
    [best_len >= 4] or with a non-empty short-table bucket, returns a
    length that reaches [nice_len] or is at least the length of every
    match of 4 bytes or more (within [max_len]) at the first [max_depth]
    positions of the chain of its bucket. *)
Theorem search_finds_best_within_depth (lz_hash : Z -> Z -> Z) (fast : bool)
    (buf : list byte) (n : Z) (st : mf_state)
    (p best_len max_len nice_len max_search_depth v k : Z) (l : list Z) :
  reachable lz_hash fast buf n st ->
  n <= p < 2 ^ 32 ->
  5 <= max_len ->
  1 <= max_search_depth < 2 ^ 32 ->
  4 <= best_len \/ arr_get (hash3_tab (fst st)) (fst (snd st)) <> 0 ->
  chain (next_tab (fst st)) (arr_get (hash4_tab (fst st)) (snd (snd st))) l ->
  In v (firstn (Z.to_nat max_search_depth) l) ->
  4 <= k <= max_len ->
  match_at buf p v k ->
  exists r,
    hc_matchfinder_longest_match lz_hash fast (fst st) buf p best_len
      max_len nice_len max_search_depth (snd st) = Some r
    /\ (k <= sr_len r \/ nice_len <= sr_len r).
Proof.
  intros Hr Hp. apply reachable_inv in Hr as [Hn Hinv].
  apply (longest_match_best lz_hash fast buf n); [exact Hinv|lia|lia].
Qed.

(** ** A scan that inserts every position *)

Lemma descending_length (n : Z) (l : list Z) :
  descending n l -> Z.of_nat (length l) < Z.max n 1.
Proof.
  revert n. induction l as [|v l IH]; intros n; simpl length; [lia|].
  intros [Hv Hd]. apply IH in Hd. lia.
Qed.

Section Scan.
Variable lz_hash : Z -> Z -> Z.
Variable buf : list byte.
Variable mf0 : hc_matchfinder.
Hypothesis hash3_range :
  forall x, 0 <= lz_hash x HC_MATCHFINDER_HASH3_ORDER
            < 2 ^ HC_MATCHFINDER_HASH3_ORDER.
Hypothesis hash4_range :
  forall x, 0 <= lz_hash x HC_MATCHFINDER_HASH4_ORDER
            < 2 ^ HC_MATCHFINDER_HASH4_ORDER.

Lemma scan_state_S (n : nat) :
  scan_state lz_hash buf mf0 (S n)
  = insert_position lz_hash buf (scan_state lz_hash buf mf0 n) (Z.of_nat n).
Proof.
  unfold scan_state. rewrite <- Nat.add_1_r, insert_positions_app.
  reflexivity.
Qed.

(** What the index holds once every position below [n] is inserted: the
    hashes of position [n] are ready; the bucket of the 3-byte window of
    every position [q] with [0 < q < n] is not empty; [q] is on the chain
    of the bucket of its 4-byte window. *)
Lemma scan_state_inv (n : nat) :
  Z.of_nat n <= Z.of_nat (length (next_tab mf0)) ->
  Z.of_nat n <= 2 ^ 32 ->
  let st := scan_state lz_hash buf mf0 n in
  snd st = hashes_at lz_hash buf (Z.of_nat n)
  /\ length (hash3_tab (fst st)) = Z.to_nat (2 ^ HC_MATCHFINDER_HASH3_ORDER)
  /\ length (hash4_tab (fst st)) = Z.to_nat (2 ^ HC_MATCHFINDER_HASH4_ORDER)
  /\ length (next_tab (fst st)) = length (next_tab mf0)
  /\ mf_inv (Z.of_nat n) (fst st)
  /\ (forall q, 0 < q < Z.of_nat n ->
        arr_get (hash3_tab (fst st)) (fst (hashes_at lz_hash buf q)) <> 0)
  /\ (forall q, 0 < q < Z.of_nat n ->
        exists l,
          chain (next_tab (fst st))
            (arr_get (hash4_tab (fst st)) (snd (hashes_at lz_hash buf q))) l
          /\ In q l).
Proof.
  induction n as [|n IH]; intros Hlen Hu; cbn zeta.
  - unfold scan_state. cbn [insert_positions fst snd].
    split; [reflexivity|].
    unfold hc_matchfinder_init at 1 2 3. cbn [hash3_tab hash4_tab next_tab].
    rewrite !length_replicate.
    repeat split; try apply mf_inv_init; intros q Hq; lia.
  - destruct IH as (Hnh & L3 & L4 & Ln & Hinv & Hb3 & Hb4); [lia|lia|].
    rewrite scan_state_S.
    set (st := scan_state lz_hash buf mf0 n) in *.
    assert (Hn' : 0 <= Z.of_nat n < 2 ^ 32) by lia.
    split; [cbn [insert_position snd]; f_equal; lia|].
    unfold insert_position at 1 2 3. cbn [fst hash3_tab hash4_tab next_tab].
    rewrite !arr_set_length.
    split; [exact L3|]. split; [exact L4|]. split; [exact Ln|].
    split.
    { replace (Z.of_nat (S n)) with (Z.of_nat n + 1) by lia.
      apply (mf_inv_insert lz_hash buf (Z.of_nat n)); [lia|lia|exact Hinv]. }
    assert (Hin3 : 0 <= fst (snd st) < Z.of_nat (length (hash3_tab (fst st)))).
    { rewrite Hnh, L3. cbn [hashes_at fst].
      rewrite Z2Nat.id by (unfold HC_MATCHFINDER_HASH3_ORDER; lia).
      apply hash3_range. }
    assert (Hin4 : 0 <= snd (snd st) < Z.of_nat (length (hash4_tab (fst st)))).
    { rewrite Hnh, L4. cbn [hashes_at snd].
      rewrite Z2Nat.id by (unfold HC_MATCHFINDER_HASH4_ORDER; lia).
      apply hash4_range. }
    split.
    + intros q Hq. unfold insert_position. cbn [fst hash3_tab].
      rewrite (u32_small (Z.of_nat n)) by lia.
      destruct (decide (fst (hashes_at lz_hash buf q) = fst (snd st)))
        as [->|Hne].
      * rewrite arr_get_set_eq by exact Hin3. lia.
      * rewrite arr_get_set_ne by exact Hne. apply Hb3.
        destruct (decide (q = Z.of_nat n)) as [->|]; [|lia].
        rewrite Hnh in Hne. congruence.
    + intros q Hq.
      destruct Hinv as [_ H4].
      destruct (H4 (snd (hashes_at lz_hash buf q))) as (l & Hc & Hd).
      destruct (H4 (snd (snd st))) as (l0 & Hc0 & Hd0).
      destruct (chain_after_insert lz_hash buf (Z.of_nat n) (Z.of_nat n)
                  (snd (hashes_at lz_hash buf q)) st l l0
                  ltac:(lia) ltac:(lia) Hc Hd Hc0 Hd0) as [Hch _].
      cbn zeta in Hch. eexists. split; [exact Hch|].
      unfold chain_after.
      destruct (decide (snd (hashes_at lz_hash buf q) = snd (snd st) /\ _))
        as [[Heq _]|Hnot].
      * rewrite decide_False by lia. rewrite decide_True by lia.
        destruct (decide (q = Z.of_nat n)) as [->|Hqn]; [by left|right].
        destruct (Hb4 q ltac:(lia)) as (lq & Hcq & Hinq).
        rewrite Heq in Hcq.
        by rewrite (chain_functional _ _ _ _ Hc0 Hcq).
      * assert (Hqn : q <> Z.of_nat n).
        { intros ->. apply Hnot. split; [by rewrite Hnh|exact Hin4]. }
        destruct (Hb4 q ltac:(lia)) as (lq & Hcq & Hinq).
        by rewrite (chain_functional _ _ _ _ Hc Hcq).
Qed.

Lemma match_at_hashes (p q k : Z) :
  4 <= k -> match_at buf p q k ->
  hashes_at lz_hash buf q = hashes_at lz_hash buf p.
Proof.
  intros Hk Hm. unfold hashes_at.
  assert (H : load_u32_unaligned buf q = load_u32_unaligned buf p).
  { rewrite <- (Z.add_0_r q), <- (Z.add_0_r p).
    apply (match_at_load_u32 buf p q k); [exact Hm|lia|lia]. }
  by rewrite H.
Qed.

(** X11.  After a scan has inserted every position below [n] of a buffer,
    a search at [n] with a depth that covers the chain ([max_depth >= n])
    returns a length that reaches [nice_len] or is at least the length of
    every match of 4 bytes or more (within [max_len]) at any earlier
    position other than 0.  The hash function must map into the tables
    and the chain-link table must have a slot for every position. *)
Theorem scan_finds_longest (fast : bool) (n : nat)
    (best_len max_len nice_len max_search_depth q k : Z) :
  Z.of_nat n <= Z.of_nat (length (next_tab mf0)) ->
  Z.of_nat n < 2 ^ 32 ->
  0 < q < Z.of_nat n ->
  Z.of_nat n <= max_search_depth < 2 ^ 32 ->
  5 <= max_len ->
  4 <= k <= max_len ->
  match_at buf (Z.of_nat n) q k ->
  exists r,
    hc_matchfinder_longest_match lz_hash fast
      (fst (scan_state lz_hash buf mf0 n)) buf (Z.of_nat n) best_len
      max_len nice_len max_search_depth
      (snd (scan_state lz_hash buf mf0 n)) = Some r
    /\ (k <= sr_len r \/ nice_len <= sr_len r).
Proof.
  intros Hlen Hu Hq Hdepth Hml Hk Hm.
  destruct (scan_state_inv n Hlen ltac:(lia))
    as (Hnh & _ & _ & _ & Hinv & Hb3 & Hb4).
  cbn zeta in *.
  assert (Hh : hashes_at lz_hash buf q = snd (scan_state lz_hash buf mf0 n)).
  { rewrite Hnh. apply (match_at_hashes _ _ k); [lia|exact Hm]. }
  destruct (Hb4 q Hq) as (l & Hc & Hin). rewrite Hh in Hc.
  apply (longest_match_best lz_hash fast buf (Z.of_nat n) _ _ _ _ _ _ q k l);
    try assumption; try lia.
  - right. rewrite <- Hh. by apply Hb3.
  - rewrite firstn_all2; [exact Hin|].
    destruct Hinv as [_ H4].
    destruct (H4 (snd (snd (scan_state lz_hash buf mf0 n))))
      as (l1 & Hc1 & Hd1).
    rewrite (chain_functional _ _ _ _ Hc Hc1).
    apply descending_length in Hd1. lia.
Qed.

End Scan.

(** ** The closest of the longest *)

Section Closest.
Variable UNALIGNED_ACCESS_IS_FAST : bool.
Variable buf : list byte.

Lemma find_longer_closest (mf : hc_matchfinder) (p max_len nice_len : Z)
    (fuel : nat) :
  4 <= max_len ->
  forall v d bl bm l r,
    3 <= bl -> 1 <= d < 2 ^ 32 ->
    chain (next_tab mf) v l -> v <> 0 ->
    find_longer UNALIGNED_ACCESS_IS_FAST fuel mf buf p max_len nice_len
      v d bl bm = Some r ->
    r = (bl, bm) \/ (bl < fst r /\ closest_on buf p max_len d l r).
Proof.
  intros Hmax.
  induction fuel as [|fuel IH]; intros v d bl bm l r Hbl Hd Hc Hv;
    simpl; [discriminate|].
  inversion Hc as [|v0 l' _ Hc']; subst; [congruence|].
  (* moving on from [v], whose matches are all within [bl'] *)
  assert (Hstep : forall bl' bm' : Z,
             bl <= bl' ->
             (forall k, k <= max_len -> match_at buf p v k -> k <= bl') ->
             forall r',
               (if arr_get (next_tab mf) v =? 0 then Some (bl', bm')
                else if u32 (d - 1) =? 0 then Some (bl', bm')
                else find_longer UNALIGNED_ACCESS_IS_FAST fuel mf buf p
                       max_len nice_len (arr_get (next_tab mf) v)
                       (u32 (d - 1)) bl' bm') = Some r' ->
               r' = (bl', bm')
               \/ (bl' < fst r' /\ closest_on buf p max_len d (v :: l') r')).
  { intros bl' bm' Hle Hhere r'.
    rewrite (u32_small (d - 1)) by lia.
    destruct (arr_get (next_tab mf) v =? 0) eqn:Hz; [intros [= <-]; by left|].
    destruct (d - 1 =? 0) eqn:Hd1; [intros [= <-]; by left|].
    intros Hrec.
    apply (IH _ _ _ _ l') in Hrec; [|lia|lia|exact Hc'|lia].
    destruct Hrec as [?|[Hlt (pre & rest & -> & Hlen & Hpre)]]; [by left|].
    right. split; [exact Hlt|].
    exists (v :: pre), rest. cbn [app length]. split; [reflexivity|].
    split; [lia|].
    intros w k [<-|Hin] Hk Hm; [|by apply (Hpre w)].
    specialize (Hhere k Hk Hm). lia. }
  destruct (longer_candidate _ _ _ _ _) eqn:Hcand.
  - set (len := lz_extend buf p v _ max_len).
    assert (Hlen : forall k, k <= max_len -> match_at buf p v k -> k <= len).
    { intros k Hk Hm. apply lz_extend_ge; [|exact Hk|exact Hm].
      destruct UNALIGNED_ACCESS_IS_FAST; lia. }
    destruct (len >? bl) eqn:Hgt.
    + assert (Hnew : bl < fst (len, v)
                     /\ closest_on buf p max_len d (v :: l') (len, v)).
      { split; [simpl; lia|]. exists [], l'. cbn [app length fst snd].
        split; [reflexivity|]. split; [lia|]. intros w k []. }
      cbn [andb].
      destruct (len >=? nice_len); [intros [= <-]; by right|].
      intros Hrec. apply (Hstep len v) in Hrec; [|lia|exact Hlen].
      destruct Hrec as [->|[Hlt Hcl]]; [by right|].
      right. split; [lia|exact Hcl].
    + cbn [andb]. apply Hstep; [lia|].
      intros k Hk Hm. specialize (Hlen k Hk Hm). lia.
  - apply Hstep; [lia|].
    intros k Hk Hm. destruct (Z.le_gt_cases k bl) as [|Hgt]; [assumption|].
    rewrite (longer_candidate_complete _ buf p v bl k Hbl Hgt Hm) in Hcand.
    discriminate.
Qed.

Lemma search_chains_closest (mf : hc_matchfinder)
    (p bl0 max_len nice_len depth c3 c4 : Z) (l : list Z) (r : Z * Z) :
  5 <= max_len -> 1 <= depth < 2 ^ 32 ->
  chain (next_tab mf) c4 l ->
  search_chains UNALIGNED_ACCESS_IS_FAST mf buf p bl0 max_len nice_len
    depth c3 c4 = Some r ->
  4 <= fst r -> bl0 < fst r ->
  closest_on buf p max_len depth l r.
Proof.
  intros Hmax Hdepth Hc. unfold search_chains.
  assert (Hmax4 : 4 <= max_len) by lia.
  destruct (bl0 <? 4) eqn:Hbl.
  - destruct (c3 =? 0); [intros [= <-]; simpl; lia|].
    set (b3 := if (bl0 <? 3) && _ then (3, c3) else (bl0, p)).
    assert (Hb3 : fst b3 < 4).
    { subst b3. destruct (_ && _); simpl; lia. }
    destruct b3 as [bl bm]. cbn [fst] in Hb3.
    destruct (c4 =? 0) eqn:Hc4; [intros [= <-]; simpl; lia|].
    destruct (find_len4 _ mf buf _ c4 depth) as [e|] eqn:Hfind;
      [|discriminate].
    apply (find_len4_best _ _ _ _ _ _ l) in Hfind; [|lia|exact Hc|lia].
    destruct e as [v d|]; [|intros [= <-]; simpl; lia].
    destruct Hfind as (pre & l' & -> & Hpre & Hload & Hd & Hd1 & Hv & Hc').
    set (ext := lz_extend buf p v 4 max_len).
    assert (Hext : 4 <= ext) by apply lz_extend_lower.
    assert (Hhere : forall k, k <= max_len -> match_at buf p v k -> k <= ext)
      by (intros k Hk Hm; apply lz_extend_ge; [lia|exact Hk|exact Hm]).
    assert (Hpre' : forall w k, In w pre -> match_at buf p w k -> k < 4).
    { intros w k Hin Hm. destruct (Z.lt_ge_cases k 4) as [|Hge]; [assumption|].
      exfalso. apply (Hpre w Hin).
      rewrite <- (Z.add_0_r w), <- (Z.add_0_r p).
      apply (match_at_load_u32 buf p w k); [exact Hm|lia|lia]. }
    assert (Hfirst : closest_on buf p max_len depth (pre ++ v :: l') (ext, v)).
    { exists pre, l'. cbn [fst snd]. split; [reflexivity|]. split; [lia|].
      intros w k Hin _ Hm. specialize (Hpre' w k Hin Hm). lia. }
    destruct (ext >=? nice_len); [by intros [= <-]|].
    destruct (arr_get (next_tab mf) v =? 0) eqn:Hz; [by intros [= <-]|].
    rewrite (u32_small (d - 1)) by lia.
    destruct (d - 1 =? 0) eqn:Hd0; [by intros [= <-]|].
    intros Hrec _ _.
    apply (find_longer_closest _ _ _ _ _ Hmax4 _ _ _ _ l') in Hrec;
      [|lia|lia|exact Hc'|lia].
    destruct Hrec as [->|[Hlt (pre2 & rest & -> & Hlen2 & Hpre2)]];
      [exact Hfirst|].
    exists (pre ++ v :: pre2), rest.
    split; [by rewrite <- app_assoc|].
    split; [rewrite length_app; cbn [length]; lia|].
    intros w k Hin Hk Hm. apply in_app_or in Hin as [Hin|[<-|Hin]].
    + specialize (Hpre' w k Hin Hm). lia.
    + specialize (Hhere k Hk Hm). lia.
    + by apply (Hpre2 w).
  - destruct (c4 =? 0) eqn:Hc4; [intros [= <-]; simpl; lia|].
    cbn [orb]. destruct (bl0 >=? nice_len); [intros [= <-]; simpl; lia|].
    intros Hrec _ Hlt.
    apply (find_longer_closest _ _ _ _ _ Hmax4 _ _ _ _ l) in Hrec;
      [|lia|lia|exact Hc|lia].
    destruct Hrec as [->|[_ ?]]; [simpl in Hlt; lia|assumption].
Qed.

End Closest.

(** X12.  A reported match of 4 bytes or more starts at one of the first
    [max_depth] positions of the chain of its bucket, and every position
    before it on the chain, that is every closer candidate, has a strictly
    shorter match. *)
Theorem search_prefers_closest (lz_hash : Z -> Z -> Z) (fast : bool)
    (buf : list byte) (n : Z) (st : mf_state)
    (p best_len max_len nice_len max_search_depth : Z) (l : list Z) :
  reachable lz_hash fast buf n st ->
  n <= p < 2 ^ 32 ->
  1 <= max_search_depth < 2 ^ 32 ->
  chain (next_tab (fst st)) (arr_get (hash4_tab (fst st)) (snd (snd st))) l ->
  exists r,
    hc_matchfinder_longest_match lz_hash fast (fst st) buf p best_len
      max_len nice_len max_search_depth (snd st) = Some r
    /\ (best_len < sr_len r -> 4 <= sr_len r ->
        exists pre rest,
          l = pre ++ (p - sr_offset r) :: rest
          /\ Z.of_nat (length pre) < max_search_depth
          /\ forall w k, In w pre -> k <= max_len -> match_at buf p w k ->
                          k < sr_len r).
Proof.
  intros Hr Hp Hdepth Hc. apply reachable_inv in Hr as [Hn [H3 H4]].
  destruct (longest_match_terminates fast lz_hash (fst st) buf p best_len
              max_len nice_len max_search_depth (snd st)) as [r Hs].
  exists r. split; [exact Hs|].
  unfold hc_matchfinder_longest_match in Hs.
  destruct (max_len <? 5) eqn:Hml.
  { injection Hs as <-. cbn [sr_len]. lia. }
  destruct (search_chains _ _ _ _ _ _ _ _ _ _) as [[bl bm]|] eqn:Hsc;
    [|discriminate].
  injection Hs as <-. cbn [sr_len sr_offset]. intros Hlt H4'.
  assert (Hd : descending n l).
  { destruct (H4 (snd (snd st))) as (l1 & Hc1 & Hd1).
    by rewrite (chain_functional _ _ _ _ Hc Hc1). }
  assert (Hc' : chain (arr_set (next_tab (fst st)) p
                         (arr_get (hash4_tab (fst st)) (snd (snd st))))
                  (arr_get (hash4_tab (fst st)) (snd (snd st))) l)
    by (eapply chain_set_above; [|exact Hc|exact Hd]; lia).
  assert (Hml5 : 5 <= max_len) by lia.
  pose proof (fun H => search_chains_closest fast buf _ _ _ _ _ _ _ _ l _
                          Hml5 Hdepth H Hsc H4' Hlt) as Hcl.
  specialize (Hcl Hc').
  eapply search_chains_ok in Hsc;
    [|lia|destruct (H3 (fst (snd st))); [by left|right; lia]|exact Hc'
     |eapply descending_weaken; [|exact Hd]; lia].
  destruct Hsc as [[Hb _]|(_ & Hm & _)]; cbn [fst snd] in *; [lia|].
  rewrite (u32_small (p - bm)) by lia.
  replace (p - (p - bm)) with bm by lia. exact Hcl.
Qed.

(** ** Matches of 3 bytes *)

Lemma search_chains_short (fast : bool) (mf : hc_matchfinder)
    (buf : list byte) (p bl0 max_len nice_len depth c3 c4 : Z) (r : Z * Z) :
  search_chains fast mf buf p bl0 max_len nice_len depth c3 c4 = Some r ->
  bl0 < 3 ->
  fst r = bl0 \/ (fst r = 3 /\ snd r = c3) \/ 4 <= fst r.
Proof.
  unfold search_chains. intros Hs Hbl.
  replace (bl0 <? 4) with true in Hs by (symmetry; apply Z.ltb_lt; lia).
  destruct (c3 =? 0); [injection Hs as <-; by left|].
  set (b3 := if (bl0 <? 3) && _ then (3, c3) else (bl0, p)) in Hs.
  assert (Hb3 : fst b3 = bl0 \/ (fst b3 = 3 /\ snd b3 = c3)).
  { subst b3. destruct (_ && _); simpl; [by right|by left]. }
  destruct b3 as [bl bm]. cbn [fst snd] in Hb3.
  destruct (c4 =? 0); [injection Hs as <-; tauto|].
  destruct (find_len4 _ mf buf _ c4 depth) as [[v d|]|];
    [|injection Hs as <-; tauto|discriminate].
  pose proof (lz_extend_lower buf p v 4 max_len) as Hext.
  right. right.
  destruct (_ >=? nice_len); [by injection Hs as <-|].
  destruct (arr_get (next_tab mf) v =? 0); [by injection Hs as <-|].
  destruct (u32 (d - 1) =? 0); [by injection Hs as <-|].
  apply find_longer_grows in Hs. destruct Hs as [[-> _]|?]; lia.
Qed.

(** X13.  A match of exactly 3 bytes, reported to a caller that asked for
    more than [best_len < 3], is at the position held by the short-table
    bucket when the search began. *)
Theorem short_match_from_short_table (lz_hash : Z -> Z -> Z) (fast : bool)
    (buf : list byte) (n : Z) (st : mf_state)
    (p best_len max_len nice_len max_search_depth : Z) :
  reachable lz_hash fast buf n st ->
  n <= p < 2 ^ 32 ->
  best_len < 3 ->
  exists r,
    hc_matchfinder_longest_match lz_hash fast (fst st) buf p best_len
      max_len nice_len max_search_depth (snd st) = Some r
    /\ (if sr_len r =? 3
        then p - sr_offset r = arr_get (hash3_tab (fst st)) (fst (snd st))
        else sr_len r = best_len \/ 4 <= sr_len r).
Proof.
  intros Hr Hp Hbl. apply reachable_inv in Hr as [Hn [H3 H4]].
  destruct (longest_match_terminates fast lz_hash (fst st) buf p best_len
              max_len nice_len max_search_depth (snd st)) as [r Hs].
  exists r. split; [exact Hs|].
  unfold hc_matchfinder_longest_match in Hs.
  destruct (max_len <? 5) eqn:Hml.
  { injection Hs as <-. cbn [sr_len].
    replace (best_len =? 3) with false by (symmetry; apply Z.eqb_neq; lia).
    by left. }
  destruct (search_chains _ _ _ _ _ _ _ _ _ _) as [[bl bm]|] eqn:Hsc;
    [|discriminate].
  injection Hs as <-. cbn [sr_len sr_offset].
  destruct (H4 (snd (snd st))) as (l & Hc & Hd).
  pose proof (search_chains_short _ _ _ _ _ _ _ _ _ _ _ Hsc Hbl) as Hshort.
  eapply search_chains_ok in Hsc;
    [|lia|destruct (H3 (fst (snd st))); [by left|right; lia]
     |cbn [next_tab]; eapply chain_set_above; [|exact Hc|exact Hd]; lia
     |eapply descending_weaken; [|exact Hd]; lia].
  cbn [fst snd] in Hshort.
  destruct (bl =? 3) eqn:E.
  - apply Z.eqb_eq in E.
    destruct Hshort as [?|[[_ ->]|?]]; [lia| |lia].
    destruct Hsc as [[Hb _]|(_ & Hm & _)]; cbn [fst snd] in *; [lia|].
    rewrite (u32_small (p - _)) by lia. lia.
  - apply Z.eqb_neq in E.
    destruct Hshort as [?|[[? _]|?]]; [by left|lia|by right].
Qed.

(** ** Instances on concrete buffers *)

Lemma match_atb_sound (buf : list byte) (p m len : Z) :
  match_atb buf p m len = true -> match_at buf p m len.
Proof.
  unfold match_atb. rewrite forallb_forall. intros H i Hi.
  specialize (H (Z.to_nat i)). rewrite Z2Nat.id in H by lia.
  apply Z.eqb_eq, H, in_seq. lia.
Qed.

Lemma lz_hash_mul_range3 (x : Z) :
  0 <= lz_hash_mul x HC_MATCHFINDER_HASH3_ORDER
  < 2 ^ HC_MATCHFINDER_HASH3_ORDER.
Proof.
  unfold lz_hash_mul, HC_MATCHFINDER_HASH3_ORDER.
  pose proof (u32_range (x * 506832829)).
  rewrite Z.shiftr_div_pow2 by lia. split.
  - apply Z.div_pos; lia.
  - apply Z.div_lt_upper_bound; lia.
Qed.

Lemma lz_hash_mul_range4 (x : Z) :
  0 <= lz_hash_mul x HC_MATCHFINDER_HASH4_ORDER
  < 2 ^ HC_MATCHFINDER_HASH4_ORDER.
Proof.
  unfold lz_hash_mul, HC_MATCHFINDER_HASH4_ORDER.
  pose proof (u32_range (x * 506832829)).
  rewrite Z.shiftr_div_pow2 by lia. split.
  - apply Z.div_pos; lia.
  - apply Z.div_lt_upper_bound; lia.
Qed.

Ltac by_computation :=
  vm_compute; repeat split; first [discriminate | reflexivity].

Lemma skip_updates_next_hashes_witness :
  exists r,
    hc_matchfinder_skip_positions lz_hash_mul (fst (scan_start buf_aaaa))
      buf_aaaa 0 12 4 (snd (scan_start buf_aaaa)) = Some r
    /\ sk_next_hashes r = hashes_at lz_hash_mul buf_aaaa (0 + 4).
Proof.
  apply (skip_updates_next_hashes lz_hash_mul buf_aaaa (scan_start buf_aaaa)
           0 12 4); lia.
Defined.

Lemma skip_composes_witness :
  exists r1 r,
    hc_matchfinder_skip_positions lz_hash_mul (fst (scan_start buf_aaaa))
      buf_aaaa 0 12 3 (snd (scan_start buf_aaaa)) = Some r1
    /\ hc_matchfinder_skip_positions lz_hash_mul (sk_mf r1) buf_aaaa (0 + 3)
         12 4 (sk_next_hashes r1) = Some r
    /\ hc_matchfinder_skip_positions lz_hash_mul (fst (scan_start buf_aaaa))
         buf_aaaa 0 12 (3 + 4) (snd (scan_start buf_aaaa)) = Some r.
Proof.
  apply (skip_composes lz_hash_mul buf_aaaa (scan_start buf_aaaa) 0 12 3 4);
    lia.
Defined.

Lemma skip_frame_witness :
  exists r,
    hc_matchfinder_skip_positions lz_hash_mul (fst (scanned buf_aaaa 2))
      buf_aaaa 2 12 3 (snd (scanned buf_aaaa 2)) = Some r
    /\ length (hash3_tab (sk_mf r))
       = length (hash3_tab (fst (scanned buf_aaaa 2)))
    /\ length (hash4_tab (sk_mf r))
       = length (hash4_tab (fst (scanned buf_aaaa 2)))
    /\ length (next_tab (sk_mf r))
       = length (next_tab (fst (scanned buf_aaaa 2)))
    /\ arr_get (next_tab (sk_mf r)) 1
       = arr_get (next_tab (fst (scanned buf_aaaa 2))) 1
    /\ (arr_get (hash3_tab (sk_mf r)) (fst (snd (scanned buf_aaaa 2)))
        = arr_get (hash3_tab (fst (scanned buf_aaaa 2)))
            (fst (snd (scanned buf_aaaa 2)))
        \/ 2 <= arr_get (hash3_tab (sk_mf r)) (fst (snd (scanned buf_aaaa 2)))
           < 2 + 3)
    /\ (arr_get (hash4_tab (sk_mf r)) (fst (snd (scanned buf_aaaa 2)))
        = arr_get (hash4_tab (fst (scanned buf_aaaa 2)))
            (fst (snd (scanned buf_aaaa 2)))
        \/ 2 <= arr_get (hash4_tab (sk_mf r)) (fst (snd (scanned buf_aaaa 2)))
           < 2 + 3).
Proof.
  apply (skip_frame lz_hash_mul buf_aaaa (scanned buf_aaaa 2) 2 12 3 1
           (fst (snd (scanned buf_aaaa 2)))); lia.
Defined.

Lemma search_prepends_witness :
  exists r,
    hc_matchfinder_longest_match lz_hash_mul true
      (fst (scanned buf_aaaa 4)) buf_aaaa 4 0 6 6 4
      (snd (scanned buf_aaaa 4)) = Some r
    /\ arr_get (hash3_tab (sr_mf r)) (fst (snd (scanned buf_aaaa 4))) = 4
    /\ chain (next_tab (sr_mf r))
         (arr_get (hash4_tab (sr_mf r)) (snd (snd (scanned buf_aaaa 4))))
         [4; 3; 2; 1]
    /\ chain (next_tab (sr_mf r))
         (arr_get (hash4_tab (sr_mf r))
            (snd (snd (scanned buf_aaaa 4)) + 1)) [].
Proof.
  apply (search_prepends lz_hash_mul true buf_aaaa 4 (scanned buf_aaaa 4)
           4 0 6 6 4 (snd (snd (scanned buf_aaaa 4)) + 1) [3; 2; 1] []).
  - apply (scanned_reachable true buf_aaaa 4);
      [lia|vm_compute; discriminate|reflexivity].
  - lia.
  - lia.
  - lia.
  - by_computation.
  - by_computation.
  - by_computation.
  - apply (chain_walk_sound _ 4). vm_compute. reflexivity.
  - lia.
  - apply (chain_walk_sound _ 1). vm_compute. reflexivity.
Defined.

Lemma reset_forgets_history_witness :
  exists st1 st2 outs,
    run_calls lz_hash_mul true buf_aaaa
      (hc_matchfinder_init (fst (scanned buf_deep 15)),
       hashes_at lz_hash_mul buf_aaaa 0)
      [Skip 0 12 4; Search 4 0 8 8 4] = Some (st1, outs)
    /\ run_calls lz_hash_mul true buf_aaaa
         (hc_matchfinder_init
            (mk_hc_matchfinder [] [] (replicate 27%nat 0)),
          hashes_at lz_hash_mul buf_aaaa 0)
         [Skip 0 12 4; Search 4 0 8 8 4] = Some (st2, outs).
Proof.
  apply (reset_forgets_history lz_hash_mul true buf_aaaa
           (fst (scanned buf_deep 15))
           (mk_hc_matchfinder [] [] (replicate 27%nat 0))).
  - vm_compute. reflexivity.
  - cbn. lia.
Defined.

Lemma search_match_is_maximal_witness :
  exists r,
    hc_matchfinder_longest_match lz_hash_mul true
      (fst (scanned buf_deep 15)) buf_deep 15 0 7 7 1
      (snd (scanned buf_deep 15)) = Some r
    /\ (0 < sr_len r -> 4 <= sr_len r -> sr_len r < 7 ->
        byte_at buf_deep (15 + sr_len r)
        <> byte_at buf_deep (15 - sr_offset r + sr_len r)).
Proof.
  apply (search_match_is_maximal lz_hash_mul true buf_deep 15); [|lia].
  apply (scanned_reachable true buf_deep 15);
    [lia|vm_compute; discriminate|reflexivity].
Defined.

Lemma search_finds_best_within_depth_witness :
  exists r,
    hc_matchfinder_longest_match lz_hash_mul true
      (fst (scanned buf_deep 15)) buf_deep 15 0 7 7 2
      (snd (scanned buf_deep 15)) = Some r
    /\ (7 <= sr_len r \/ 7 <= sr_len r).
Proof.
  apply (search_finds_best_within_depth lz_hash_mul true buf_deep 15
           (scanned buf_deep 15) 15 0 7 7 2 1 7 [9; 1]).
  - apply (scanned_reachable true buf_deep 15);
      [lia|vm_compute; discriminate|reflexivity].
  - lia.
  - lia.
  - lia.
  - right. vm_compute. discriminate.
  - apply (chain_walk_sound _ 3). vm_compute. reflexivity.
  - cbn. right. left. reflexivity.
  - lia.
  - apply match_atb_sound. vm_compute. reflexivity.
Defined.

Lemma scan_finds_longest_witness :
  exists r,
    hc_matchfinder_longest_match lz_hash_mul true
      (fst (scan_state lz_hash_mul buf_deep
              (mk_hc_matchfinder [] [] (replicate 27%nat 0)) 15))
      buf_deep (Z.of_nat 15) 0 7 7 15
      (snd (scan_state lz_hash_mul buf_deep
              (mk_hc_matchfinder [] [] (replicate 27%nat 0)) 15)) = Some r
    /\ (7 <= sr_len r \/ 7 <= sr_len r).
Proof.
  apply (scan_finds_longest lz_hash_mul buf_deep
           (mk_hc_matchfinder [] [] (replicate 27%nat 0))
           lz_hash_mul_range3 lz_hash_mul_range4 true 15 0 7 7 15 1 7).
  - cbn. lia.
  - cbn. lia.
  - cbn. lia.
  - cbn. lia.
  - lia.
  - lia.
  - apply match_atb_sound. vm_compute. reflexivity.
Defined.

Lemma search_prefers_closest_witness :
  exists r,
    hc_matchfinder_longest_match lz_hash_mul true
      (fst (scanned buf_deep 15)) buf_deep 15 0 7 7 2
      (snd (scanned buf_deep 15)) = Some r
    /\ (0 < sr_len r -> 4 <= sr_len r ->
        exists pre rest,
          [9; 1] = pre ++ (15 - sr_offset r) :: rest
          /\ Z.of_nat (length pre) < 2
          /\ forall w k, In w pre -> k <= 7 -> match_at buf_deep 15 w k ->
                          k < sr_len r).
Proof.
  apply (search_prefers_closest lz_hash_mul true buf_deep 15
           (scanned buf_deep 15) 15 0 7 7 2 [9; 1]).
  - apply (scanned_reachable true buf_deep 15);
      [lia|vm_compute; discriminate|reflexivity].
  - lia.
  - lia.
  - apply (chain_walk_sound _ 3). vm_compute. reflexivity.
Defined.

Lemma short_match_from_short_table_witness :
  exists r,
    hc_matchfinder_longest_match lz_hash_mul true
      (fst (scanned (buf_of "xABCXABCYZ") 5)) (buf_of "xABCXABCYZ")
      5 0 5 5 4 (snd (scanned (buf_of "xABCXABCYZ") 5)) = Some r
    /\ (if sr_len r =? 3
        then 5 - sr_offset r
             = arr_get (hash3_tab (fst (scanned (buf_of "xABCXABCYZ") 5)))
                 (fst (snd (scanned (buf_of "xABCXABCYZ") 5)))
        else sr_len r = 0 \/ 4 <= sr_len r).
Proof.
  apply (short_match_from_short_table lz_hash_mul true (buf_of "xABCXABCYZ")
           5 (scanned (buf_of "xABCXABCYZ") 5) 5 0 5 5 4); [|lia|lia].
  apply (scanned_reachable true (buf_of "xABCXABCYZ") 5);
    [lia|vm_compute; discriminate|reflexivity].
Defined.
